(** * GDG Study Jam leaderboard: the aggregation pipeline and its two endpoints

    A shallow embedding of [src/app.py] (the single-query implementation) and of
    [src/GDG-Study-Jam-Leaderboard-main/app.py] (the earlier implementation, in
    [Module Legacy]), with the properties the specification states about them.

    Conventions of the embedding.
    - The development first takes a row as the data model declares it, a
      dict from strings to strings, [gmap string string], with text in ASCII:
      [string] of the Standard Library, [isspace] and [upper] being Python's
      [str.isspace] and [str.upper] on that range.
    - [Module Dyn] takes a row as the store can deliver it: a field holds any
      JSON value, null among them, and a name is Unicode text, a list of code
      points; the tables of [str.isspace] and [str.upper] are a parameter.
      The properties of [get_initials] on every name, of missing and null
      fields, and of whether an endpoint answers at all are stated there.
    - [lab_completion_counts] is a Python dict whose [items()] order is
      observable ([sorted] is stable), so it is an insertion-ordered
      association list, [pydict].
    - Python exceptions are values of [exn]; fallible code lives in [result].
    - Python floats are IEEE binary64: the kernel's primitive [float]. *)

From Stdlib Require Import ZArith List Ascii String Permutation Sorted.
From Stdlib Require Import Floats.PrimFloat Floats.FloatOps Floats.SpecFloat.
From stdpp Require Import gmap strings list fin_maps.

Local Open Scope string_scope.
Local Open Scope nat_scope.
Local Open Scope list_scope.

(** ** Exceptions and the error monad *)

Inductive exn : Type :=
| KeyError (key : string)
| IndexError
| ZeroDivisionError
| AttributeError
| StoreError.

Inductive result (A : Type) : Type :=
| Ok (a : A)
| Raise (e : exn).
Arguments Ok {A} a.
Arguments Raise {A} e.

Definition bind {A B : Type} (m : result A) (k : A -> result B) : result B :=
  match m with
  | Ok a => k a
  | Raise e => Raise e
  end.

Notation "'let!' x ':=' m 'in' k" := (bind m (fun x => k))
  (at level 10, x name, m at level 200, k at level 200).

(** [l[i]] on a Python list. *)
Definition item {A : Type} (l : list A) (i : nat) : result A :=
  match l !! i with
  | Some a => Ok a
  | None => Raise IndexError
  end.

(** ** Strings: [str.split()], indexing, [str.upper()] *)

(** [str.isspace] on ASCII: tab, line feed, vertical tab, form feed, carriage
    return, the four separators 28..31 and the space. *)
Definition isspace (c : ascii) : bool :=
  let n := nat_of_ascii c in
  ((9 <=? n)%nat && (n <=? 13)%nat) || ((28 <=? n)%nat && (n <=? 32)%nat).

Definition starts_token (s : string) : bool :=
  match s with
  | String c _ => negb (isspace c)
  | EmptyString => false
  end.

(** [s.split()] without arguments: the maximal runs of non-whitespace
    characters, in order; leading and trailing whitespace gives no token. *)
Fixpoint split (s : string) : list string :=
  match s with
  | EmptyString => []
  | String c s' =>
      if isspace c then split s'
      else if starts_token s' then
        match split s' with
        | t :: ts => String c t :: ts
        | [] => [String c EmptyString]
        end
      else String c EmptyString :: split s'
  end.

(** [s[0]]. *)
Definition first_char (s : string) : result ascii :=
  match s with
  | String c _ => Ok c
  | EmptyString => Raise IndexError
  end.

(** [c.upper()] for a one-character ASCII string. *)
Definition upper (c : ascii) : string :=
  let n := nat_of_ascii c in
  if (97 <=? n)%nat && (n <=? 122)%nat
  then String (ascii_of_nat (n - 32)) EmptyString
  else String c EmptyString.

Definition get_initials (name : string) : result string :=
  let parts := split name in
  if (1 <? length parts)%nat then
    let! p0 := item parts 0 in
    let! c0 := first_char p0 in
    let! p1 := item parts 1 in
    let! c1 := first_char p1 in
    Ok (upper c0 ++ upper c1)%string
  else if (0 <? length parts)%nat then
    let! p0 := item parts 0 in
    let! c0 := first_char p0 in
    Ok (upper c0)
  else Ok "".

(** ** Numbers: true division and [round] *)

(** The float nearest to an integer (round to nearest, ties to even). *)
Definition float_of_nat (n : nat) : float :=
  SF2Prim (binary_normalize prec emax (Z.of_nat n) 0 false).

(** [a / b] on Python ints: [ZeroDivisionError] on a zero divisor, else the
    binary64 quotient.  Python rounds the exact quotient once; for operands
    below 2^53, which every list length is, that is the IEEE quotient of the
    two conversions. *)
Definition truediv (a b : nat) : result float :=
  if (b =? 0)%nat then Raise ZeroDivisionError
  else Ok (float_of_nat a / float_of_nat b)%float.

(** [m * 2^e] rounded to the nearest integer, ties to the even one. *)
Definition round_half_even (m e : Z) : Z :=
  if (0 <=? e)%Z then (m * 2 ^ e)%Z
  else
    let d := (2 ^ (- e))%Z in
    let q := (m / d)%Z in
    match (2 * (m mod d) ?= d)%Z with
    | Lt => q
    | Gt => (q + 1)%Z
    | Eq => if Z.even q then q else (q + 1)%Z
    end.

(** [round(x)] on a float.  Python raises on an infinity or a NaN; the
    quotients rounded here lie between 0 and 100, and the model returns 0 on
    those two. *)
Definition py_round (x : float) : Z :=
  match Prim2SF x with
  | S754_finite false m e => round_half_even (Z.pos m) e
  | S754_finite true m e => (- round_half_even (Z.pos m) e)%Z
  | S754_zero _ | S754_infinity _ | S754_nan => 0%Z
  end.

(** [round((a / b) * 100)]. *)
Definition percent (a b : nat) : result Z :=
  let! q := truediv a b in
  Ok (py_round (q * float_of_nat 100)%float).

(** ** The catalog *)

Definition LABS : list string :=
  [ "The Basics of Google Cloud Compute"; "Get Started with Cloud Storage";
    "Get Started with Pub_Sub"; "Get Started with API Gateway";
    "Get Started with Looker"; "Get Started with Dataplex";
    "Get Started with Google Workspace Tools"; "App Building with AppSheet";
    "Develop with Apps Script and AppSheet";
    "Develop GenAI Apps with Gemini and Streamlit";
    "Build a Website on Google Cloud"; "Set Up a Google Cloud Network";
    "Store, Process, and Manage Data on Google Cloud - Console";
    "Cloud Run Functions: 3 Ways"; "App Engine: 3 Ways";
    "Cloud Speech API: 3 Ways"; "Analyze Speech and Language with Google APIs";
    "Monitoring in Google Cloud"; "Prompt Design in Vertex AI" ].

(** ** Rows and the external store *)

Abbreviation row := (gmap string string).

(** The [participants] table as one request sees it: its rows, or a store
    that cannot be queried. *)
Inductive store : Type :=
| Reachable (rows : list row)
| Unreachable.

(** [supabase.table("participants").select("*").execute().data] *)
Definition fetch (db : store) : result (list row) :=
  match db with
  | Reachable rows => Ok rows
  | Unreachable => Raise StoreError
  end.

(** [row.get(lab) == "Yes"] *)
Definition is_yes (r : row) (lab : string) : bool :=
  bool_decide (r !! lab = Some "Yes").

(** [row.get(key, "N/A")] *)
Definition get_or_na (r : row) (key : string) : string :=
  default "N/A" (r !! key).

(** [row[key]] *)
Definition getitem (r : row) (key : string) : result string :=
  match r !! key with
  | Some v => Ok v
  | None => Raise (KeyError key)
  end.

(** ** Insertion-ordered dicts from lab names to counts *)

Definition pydict : Type := list (string * nat).

(** [d[k]] *)
Fixpoint dict_get (k : string) (d : pydict) : result nat :=
  match d with
  | [] => Raise (KeyError k)
  | (k', v) :: d' => if String.eqb k k' then Ok v else dict_get k d'
  end.

(** [d[k] = v]: an existing key keeps its position, a new one goes last. *)
Fixpoint dict_set (k : string) (v : nat) (d : pydict) : pydict :=
  match d with
  | [] => [(k, v)]
  | (k', v') :: d' =>
      if String.eqb k k' then (k, v) :: d' else (k', v') :: dict_set k v d'
  end.

(** [d[k] += 1] *)
Definition dict_incr (k : string) (d : pydict) : result pydict :=
  let! v := dict_get k d in
  Ok (dict_set k (v + 1) d).

(** [{lab: 0 for lab in labs}] *)
Definition dict_zero (labs : list string) : pydict :=
  fold_left (fun d lab => dict_set lab 0 d) labs [].

(** [d.items()], [d.values()] and [sum]. *)
Definition items (d : pydict) : list (string * nat) := d.
Definition values (d : pydict) : list nat := map snd d.
Definition sum (l : list nat) : nat := fold_right Nat.add 0 l.

(** ** [list.sort(key=..., reverse=True)] and [sorted(..., reverse=True)]

    Python's sort is stable, also with [reverse=True]: elements with equal
    keys keep their order.  A stable sort has one possible result, which
    insertion from the right computes. *)

Section Sort.
Context {A : Type} (key : A -> nat).

Fixpoint insert_desc (x : A) (l : list A) : list A :=
  match l with
  | [] => [x]
  | y :: l' =>
      if (key y <=? key x)%nat then x :: y :: l' else y :: insert_desc x l'
  end.

Definition sort_desc (l : list A) : list A := fold_right insert_desc [] l.
End Sort.

(** ** The aggregator of [src/app.py] *)

(** The dict appended to [processed_participants]. *)
Record summary : Type := {
  name : string;
  email : string;
  completed_labs : nat;
  name_of_completed_labs : list string
}.

(** The same dict once step 5 has added its four keys. *)
Record participant : Type := {
  base : summary;
  rank : nat;
  initials : string;
  badge_count : nat;
  completion_percentage : Z
}.

(** The inner loop over the catalog, for one row. *)
Fixpoint scan_labs (r : row) (labs : list string)
    (completed_labs_list : list string) (lab_completion_counts : pydict)
    : result (list string * pydict) :=
  match labs with
  | [] => Ok (completed_labs_list, lab_completion_counts)
  | lab :: labs' =>
      if is_yes r lab then
        let! counts' := dict_incr lab lab_completion_counts in
        scan_labs r labs' (completed_labs_list ++ [lab]) counts'
      else scan_labs r labs' completed_labs_list lab_completion_counts
  end.

(** The loop over the rows (step 3). *)
Fixpoint process_rows (labs : list string) (rows : list row)
    (processed_participants : list summary) (lab_completion_counts : pydict)
    : result (list summary * pydict) :=
  match rows with
  | [] => Ok (processed_participants, lab_completion_counts)
  | r :: rows' =>
      let! scanned := scan_labs r labs [] lab_completion_counts in
      let user := {| name := get_or_na r "name";
                     email := get_or_na r "email";
                     completed_labs := length (fst scanned);
                     name_of_completed_labs := fst scanned |} in
      process_rows labs rows' (processed_participants ++ [user]) (snd scanned)
  end.

(** [round((completed / len(LABS)) * 100) if LABS else 0] *)
Definition percentage_of (labs : list string) (completed : nat) : result Z :=
  match labs with
  | [] => Ok 0%Z
  | _ :: _ => percent completed (length labs)
  end.

(** The loop over [enumerate(processed_participants, start=rank)] (step 5). *)
Fixpoint add_derived (labs : list string) (rank : nat) (users : list summary)
    (final_participant_data : list participant) : result (list participant) :=
  match users with
  | [] => Ok final_participant_data
  | user :: users' =>
      let! user_initials := get_initials (name user) in
      let! pct := percentage_of labs (completed_labs user) in
      let user' := {| base := user;
                      rank := rank;
                      initials := user_initials;
                      badge_count := completed_labs user;
                      completion_percentage := pct |} in
      add_derived labs (S rank) users' (final_participant_data ++ [user'])
  end.

Definition get_processed_participant_data (labs : list string) (db : store)
    : result (list participant * pydict) :=
  match fetch db with
  | Raise _ => Ok ([], dict_zero labs)
  | Ok all_participants_raw =>
      let! processed := process_rows labs all_participants_raw [] (dict_zero labs) in
      let processed_participants := sort_desc completed_labs (fst processed) in
      let! final_participant_data := add_derived labs 1 processed_participants [] in
      Ok (final_participant_data, snd processed)
  end.

(** ** The endpoints of [src/app.py] *)

Record performer : Type := {
  performer_name : string;
  performer_initials : string;
  badges : nat
}.

Definition no_performer : performer :=
  {| performer_name := "N/A"; performer_initials := "N/A"; badges := 0 |}.

Module Home.
(** The JSON object of [/api/home-data]. *)
Record data : Type := {
  total_participants : nat;
  completion_percentage : Z;
  average_progress : Z;
  top_performer : performer;
  badge_completion_rate : pydict;
  badge_popularity : list (string * nat)
}.
End Home.

(** [sorted(d.items(), key=lambda item: item[1], reverse=True)[:6]] *)
Definition top_six (d : pydict) : list (string * nat) :=
  take 6 (sort_desc snd (items d)).

Definition get_stats (labs : list string) (db : store) : result Home.data :=
  let! data := get_processed_participant_data labs db in
  let participant_data := fst data in
  let badge_completion_rate := snd data in
  let total_participants := length participant_data in
  if (total_participants =? 0)%nat then
    Ok {| Home.total_participants := 0;
          Home.completion_percentage := 0;
          Home.average_progress := 0;
          Home.top_performer := no_performer;
          Home.badge_completion_rate := badge_completion_rate;
          Home.badge_popularity := [] |}
  else
    let total_completed_all :=
      length (List.filter
                (fun p => (completed_labs (base p) =? length labs)%nat)
                participant_data) in
    let! completion_ratio := truediv total_completed_all total_participants in
    let completion_percentage := (completion_ratio * float_of_nat 100)%float in
    let total_badges :=
      sum (map (fun p => completed_labs (base p)) participant_data) in
    let! average_progress := truediv total_badges total_participants in
    let! top_performer_data := item participant_data 0 in
    let top_performer :=
      if (0 <? completed_labs (base top_performer_data))%nat then
        {| performer_name := name (base top_performer_data);
           performer_initials := initials top_performer_data;
           badges := completed_labs (base top_performer_data) |}
      else no_performer in
    let badge_popularity := top_six badge_completion_rate in
    Ok {| Home.total_participants := total_participants;
          Home.completion_percentage := py_round completion_percentage;
          Home.average_progress := py_round average_progress;
          Home.top_performer := top_performer;
          Home.badge_completion_rate := badge_completion_rate;
          Home.badge_popularity := badge_popularity |}.

Module Progress.
(** The JSON object of [/api/progress-data]. *)
Record data : Type := {
  labs : list string;
  participants : list participant
}.
End Progress.

Definition get_progress_data (labs : list string) (db : store)
    : result Progress.data :=
  let! data := get_processed_participant_data labs db in
  Ok {| Progress.labs := labs; Progress.participants := fst data |}.

(** What the framework answers: 200 with the JSON body, or 500 when the view
    raises. *)
Definition http_status {A : Type} (response : result A) : nat :=
  match response with
  | Ok _ => 200
  | Raise _ => 500
  end.

(** ** The earlier implementation, [GDG-Study-Jam-Leaderboard-main/app.py] *)

Module Legacy.

(** Its catalogs: the global [LABS] and the local [LAB_NAMES] hold the
    same nineteen names as [LABS] of [src/app.py]. *)
Definition LAB_NAMES : list string := LABS.

(** An element of [ranking_list]. *)
Record ranking_entry : Type := {
  entry_name : string;
  entry_email : string;
  completed : nat;
  name_of_lab : list string
}.

(** An element of [participant_data]. *)
Record participant : Type := {
  rank : nat;
  name : string;
  initials : string;
  completed_labs : nat;
  name_of_completed_labs : list string
}.

(** The same dict once [get_progress_data] has added its two keys. *)
Record progress_participant : Type := {
  listed : participant;
  badge_count : nat;
  completion_percentage : Z
}.

(** The loop over the rows of [get_participant_data]. *)
Fixpoint build_ranking (lab_names : list string) (rows : list row)
    (ranking_list : list ranking_entry) : result (list ranking_entry) :=
  match rows with
  | [] => Ok ranking_list
  | r :: rows' =>
      let completed :=
        sum (map (fun _ => 1) (List.filter (is_yes r) lab_names)) in
      let names_of_lab := List.filter (is_yes r) lab_names in
      let! row_name := getitem r "name" in
      let! row_email := getitem r "email" in
      build_ranking lab_names rows'
        (ranking_list ++ [ {| entry_name := row_name;
                              entry_email := row_email;
                              completed := completed;
                              name_of_lab := names_of_lab |} ])
  end.

(** The loop over [enumerate(ranking_list, start=rank)]. *)
Fixpoint assign_ranks (rank : nat) (ranking_list : list ranking_entry)
    (participant_data : list participant) : result (list participant) :=
  match ranking_list with
  | [] => Ok participant_data
  | user :: users' =>
      let! user_initials := get_initials (entry_name user) in
      assign_ranks (S rank) users'
        (participant_data ++ [ {| rank := rank;
                                  name := entry_name user;
                                  initials := user_initials;
                                  completed_labs := completed user;
                                  name_of_completed_labs := name_of_lab user |} ])
  end.

Definition get_participant_data (lab_names : list string) (db : store)
    : result (list participant) :=
  let! data := fetch db in
  let! ranking_list := build_ranking lab_names data [] in
  assign_ranks 1 (sort_desc completed ranking_list) [].

(** One counting query per lab:
    [select("*", count="exact").eq(lab, "Yes").execute().count]. *)
Definition count_yes (db : store) (lab : string) : result nat :=
  let! rows := fetch db in
  Ok (length (List.filter (fun r => is_yes r lab) rows)).

Fixpoint fill_counts (db : store) (labs : list string) (lab_counts : pydict)
    : result pydict :=
  match labs with
  | [] => Ok lab_counts
  | lab :: labs' =>
      let! n := count_yes db lab in
      fill_counts db labs' (dict_set lab n lab_counts)
  end.

Definition labs_completion_rate (labs : list string) (db : store)
    : result pydict :=
  fill_counts db labs [].

(** A variable that holds the int [0] or a float. *)
Inductive number : Type :=
| Int (z : Z)
| Float (x : float).

Definition round (n : number) : Z :=
  match n with
  | Int z => z
  | Float x => py_round x
  end.

(** The loop that looks for the entry of rank 1 with a positive count. *)
Fixpoint find_top (participant_data : list participant) : performer :=
  match participant_data with
  | [] => no_performer
  | i :: rest =>
      if (rank i =? 1)%nat && (0 <? completed_labs i)%nat then
        {| performer_name := name i;
           performer_initials := initials i;
           badges := completed_labs i |}
      else find_top rest
  end.

Definition get_stats (lab_names labs : list string) (db : store)
    : result Home.data :=
  let! participant_data := get_participant_data lab_names db in
  let total_participants := length participant_data in
  let total_possible := 20 * total_participants in
  let total_completed_all := sum (map completed_labs participant_data) in
  let! completion_percentage :=
    if (0 <? total_participants)%nat then
      let! q := truediv total_completed_all total_possible in
      Ok (Float (q * float_of_nat 100)%float)
    else Ok (Int 0) in
  let total_badges := sum (map completed_labs participant_data) in
  let! average_progress :=
    if (0 <? total_participants)%nat then
      let! q := truediv total_badges total_participants in
      Ok (Float q)
    else Ok (Int 0) in
  let top_performer := find_top participant_data in
  let! badge_completion_rate := labs_completion_rate labs db in
  let badge_popularity := top_six badge_completion_rate in
  Ok {| Home.total_participants := total_participants;
        Home.completion_percentage := round completion_percentage;
        Home.average_progress := round average_progress;
        Home.top_performer := top_performer;
        Home.badge_completion_rate := badge_completion_rate;
        Home.badge_popularity := badge_popularity |}.

(** The loop of [get_progress_data] that adds the two keys. *)
Fixpoint add_progress (labs : list string) (participant_data : list participant)
    : result (list progress_participant) :=
  match participant_data with
  | [] => Ok []
  | p :: rest =>
      let! pct := percent (completed_labs p) (length labs) in
      let! rest' := add_progress labs rest in
      Ok ({| listed := p;
             badge_count := completed_labs p;
             completion_percentage := pct |} :: rest')
  end.

Record progress_data : Type := {
  labs : list string;
  participants : list progress_participant
}.

Definition get_progress_data (lab_names catalog : list string) (db : store)
    : result progress_data :=
  let! participant_data := get_participant_data lab_names db in
  let! listed_participants := add_progress catalog participant_data in
  Ok {| labs := catalog; participants := listed_participants |}.

End Legacy.

(** ** JSON objects of the per-participant output *)

Inductive pyval : Type :=
| VStr (s : string)
| VInt (z : Z)
| VList (l : list string).

(** A participant of [src/app.py] as the dict that is serialised. *)
Definition to_dict (p : participant) : gmap string pyval :=
  <["name" := VStr (name (base p))]>
  (<["email" := VStr (email (base p))]>
  (<["completed_labs" := VInt (Z.of_nat (completed_labs (base p)))]>
  (<["name_of_completed_labs" := VList (name_of_completed_labs (base p))]>
  (<["rank" := VInt (Z.of_nat (rank p))]>
  (<["initials" := VStr (initials p)]>
  (<["badge_count" := VInt (Z.of_nat (badge_count p))]>
  (<["completion_percentage" := VInt (completion_percentage p)]> ∅))))))).

(** A participant of the earlier implementation as the dict that is
    serialised. *)
Definition legacy_to_dict (p : Legacy.progress_participant) : gmap string pyval :=
  <["rank" := VInt (Z.of_nat (Legacy.rank (Legacy.listed p)))]>
  (<["name" := VStr (Legacy.name (Legacy.listed p))]>
  (<["initials" := VStr (Legacy.initials (Legacy.listed p))]>
  (<["completed_labs" := VInt (Z.of_nat (Legacy.completed_labs (Legacy.listed p)))]>
  (<["name_of_completed_labs" := VList (Legacy.name_of_completed_labs (Legacy.listed p))]>
  (<["badge_count" := VInt (Z.of_nat (Legacy.badge_count p))]>
  (<["completion_percentage" := VInt (Legacy.completion_percentage p)]> ∅)))))).

(** ** Closed forms of the loops, in which the properties are stated *)

(** A token of a name: non-empty and free of whitespace. *)
Definition is_token (t : string) : Prop :=
  t <> "" /\ forall c, In c (list_ascii_of_string t) -> isspace c = false.

(** A run of whitespace, possibly empty. *)
Definition is_blank (w : string) : Prop :=
  forall c, In c (list_ascii_of_string w) -> isspace c = true.

(** The catalog labs a row marks "Yes", in catalog order. *)
Definition completed_in (labs : list string) (r : row) : list string :=
  List.filter (is_yes r) labs.

(** The dict step 3 builds for a row. *)
Definition summarize (labs : list string) (r : row) : summary :=
  {| name := get_or_na r "name";
     email := get_or_na r "email";
     completed_labs := length (completed_in labs r);
     name_of_completed_labs := completed_in labs r |}.

(** The initials of a name, [get_initials] being total (lemma
    [get_initials_ok]). *)
Definition initials_of (name : string) : string :=
  match get_initials name with
  | Ok s => s
  | Raise _ => ""
  end.

(** The value of [percentage_of], which never raises (lemma
    [percentage_of_ok]). *)
Definition pct (labs : list string) (completed : nat) : Z :=
  match labs with
  | [] => 0%Z
  | _ :: _ =>
      py_round (float_of_nat completed / float_of_nat (length labs)
                * float_of_nat 100)%float
  end.

(** The dict step 5 makes of a sorted entry. *)
Definition finalize (labs : list string) (rank : nat) (user : summary)
    : participant :=
  {| base := user;
     rank := rank;
     initials := initials_of (name user);
     badge_count := completed_labs user;
     completion_percentage := pct labs (completed_labs user) |}.

(** Step 5 on a whole list, the first entry getting [rank]. *)
Fixpoint ranked (labs : list string) (rank : nat) (users : list summary)
    : list participant :=
  match users with
  | [] => []
  | user :: users' => finalize labs rank user :: ranked labs (S rank) users'
  end.

(** [list(d.keys())] *)
Definition dict_keys (d : pydict) : list string := map fst d.

(** The order of a list sorted by [key], largest first. *)
Definition desc {A : Type} (key : A -> nat) (a b : A) : Prop := key b <= key a.

(** What the aggregator returns as its first component on a readable store. *)
Definition leaderboard (labs : list string) (rows : list row) : list participant :=
  ranked labs 1 (sort_desc completed_labs (map (summarize labs) rows)).

(** The number of rows that mark every catalog lab "Yes". *)
Definition fully_finished (labs : list string) (rows : list row) : nat :=
  length (List.filter
            (fun r => (length (completed_in labs r) =? length labs)%nat) rows).

(** The payload of the home endpoint when there is no participant. *)
Definition empty_home (counts : pydict) : Home.data :=
  {| Home.total_participants := 0;
     Home.completion_percentage := 0;
     Home.average_progress := 0;
     Home.top_performer := no_performer;
     Home.badge_completion_rate := counts;
     Home.badge_popularity := [] |}.

(** [top_performer] as the home endpoint derives it from the first entry. *)
Definition performer_of (p : participant) : performer :=
  if (0 <? completed_labs (base p))%nat then
    {| performer_name := name (base p);
       performer_initials := initials p;
       badges := completed_labs (base p) |}
  else no_performer.

(** Rows used as concrete inputs. *)
Definition row_of (person address : string) (done : list string) : row :=
  list_to_map (("name", person) :: ("email", address)
                 :: map (fun lab => (lab, "Yes")) done).

Definition row_all : row := row_of "A" "a@example.org" LABS.
Definition row_none : row := row_of "B" "b@example.org" [].

(** A row that has both keys the earlier implementation indexes. *)
Definition has_identity (r : row) : Prop :=
  is_Some (r !! "name") /\ is_Some (r !! "email").

(** The element of [ranking_list] the earlier implementation builds from the
    data of a summary. *)
Definition entry_of (u : summary) : Legacy.ranking_entry :=
  {| Legacy.entry_name := name u;
     Legacy.entry_email := email u;
     Legacy.completed := completed_labs u;
     Legacy.name_of_lab := name_of_completed_labs u |}.

(** A participant of [src/app.py] without its email and its last two keys. *)
Definition forget_email (p : participant) : Legacy.participant :=
  {| Legacy.rank := rank p;
     Legacy.name := name (base p);
     Legacy.initials := initials p;
     Legacy.completed_labs := completed_labs (base p);
     Legacy.name_of_completed_labs := name_of_completed_labs (base p) |}.

(** What the earlier progress endpoint makes of a listed participant. *)
Definition with_progress (labs : list string) (p : Legacy.participant)
    : Legacy.progress_participant :=
  {| Legacy.listed := p;
     Legacy.badge_count := Legacy.completed_labs p;
     Legacy.completion_percentage := pct labs (Legacy.completed_labs p) |}.

(** The number of rows that mark a lab "Yes", and the dict of these numbers
    over a catalog. *)
Definition count_rows (rows : list row) (lab : string) : nat :=
  length (List.filter (fun r => is_yes r lab) rows).

Definition tally (labs : list string) (rows : list row) : pydict :=
  map (fun lab => (lab, count_rows rows lab)) labs.

(** ** Dynamically typed rows and Unicode names

    The definitions above take a row as the data model declares it: every
    field a string, text in ASCII.  The store can hand over more: a field may
    hold null or any other JSON value, and a name any Unicode text.  This
    module models the aggregator, the home endpoint and the earlier aggregator
    on such rows.  Text is a list of code points.  What [str.isspace] and
    [str.upper] answer comes from the Unicode database of the interpreter,
    which is not part of the repository: the two tables are a parameter. *)

Module Dyn.

Definition text : Type := list N.

(** The text of an ASCII literal of the source. *)
Definition text_of_string (s : string) : text :=
  map N_of_ascii (list_ascii_of_string s).

(** [isspace c]: whether [str.split()] splits on the code point [c];
    [upper c]: [ch.upper()] for the one-character string [ch] of code point
    [c], which can be longer than one character. *)
Record unicode : Type := {
  isspace : N -> bool;
  upper : N -> text
}.

(** A field of a row: a JSON value.  [Other] stands for a float, an array or
    an object; like [Null], [Bool] and [Int] it has no [split] and equals no
    string. *)
Inductive value : Type :=
| Str (t : text)
| Null
| Bool (b : bool)
| Int (z : Z)
| Other.

#[global] Instance value_eq_dec : EqDecision value.
Proof. solve_decision. Defined.

Abbreviation row := (gmap string value).

Inductive store : Type :=
| Reachable (rows : list row)
| Unreachable.

Definition fetch (db : store) : result (list row) :=
  match db with
  | Reachable rows => Ok rows
  | Unreachable => Raise StoreError
  end.

(** [row.get(lab) == "Yes"] *)
Definition is_yes (r : row) (lab : string) : bool :=
  bool_decide (r !! lab = Some (Str (text_of_string "Yes"))).

(** [row.get(key, "N/A")]: the field, whatever it holds, when the key is
    present. *)
Definition get_or_na (r : row) (key : string) : value :=
  default (Str (text_of_string "N/A")) (r !! key).

(** [row[key]] *)
Definition getitem (r : row) (key : string) : result value :=
  match r !! key with
  | Some v => Ok v
  | None => Raise (KeyError key)
  end.

(** [s[0]] *)
Definition first_char (s : text) : result N :=
  match s with
  | c :: _ => Ok c
  | [] => Raise IndexError
  end.

Record summary : Type := {
  name : value;
  email : value;
  completed_labs : nat;
  name_of_completed_labs : list string
}.

Record participant : Type := {
  base : summary;
  rank : nat;
  initials : text;
  badge_count : nat;
  completion_percentage : Z
}.

Record performer : Type := {
  performer_name : value;
  performer_initials : value;
  badges : nat
}.

Definition no_performer : performer :=
  {| performer_name := Str (text_of_string "N/A");
     performer_initials := Str (text_of_string "N/A");
     badges := 0 |}.

(** The JSON object of [/api/home-data]. *)
Record home_data : Type := {
  total_participants : nat;
  home_completion_percentage : Z;
  average_progress : Z;
  top_performer : performer;
  badge_completion_rate : pydict;
  badge_popularity : list (string * nat)
}.

Fixpoint scan_labs (r : row) (labs : list string)
    (completed_labs_list : list string) (lab_completion_counts : pydict)
    : result (list string * pydict) :=
  match labs with
  | [] => Ok (completed_labs_list, lab_completion_counts)
  | lab :: labs' =>
      if is_yes r lab then
        let! counts' := dict_incr lab lab_completion_counts in
        scan_labs r labs' (completed_labs_list ++ [lab]) counts'
      else scan_labs r labs' completed_labs_list lab_completion_counts
  end.

Fixpoint process_rows (labs : list string) (rows : list row)
    (processed_participants : list summary) (lab_completion_counts : pydict)
    : result (list summary * pydict) :=
  match rows with
  | [] => Ok (processed_participants, lab_completion_counts)
  | r :: rows' =>
      let! scanned := scan_labs r labs [] lab_completion_counts in
      let user := {| name := get_or_na r "name";
                     email := get_or_na r "email";
                     completed_labs := length (fst scanned);
                     name_of_completed_labs := fst scanned |} in
      process_rows labs rows' (processed_participants ++ [user]) (snd scanned)
  end.

(** An element of [ranking_list] and of [participant_data] in the earlier
    implementation. *)
Record ranking_entry : Type := {
  entry_name : value;
  entry_email : value;
  completed : nat;
  name_of_lab : list string
}.

Record listed : Type := {
  listed_rank : nat;
  listed_name : value;
  listed_initials : text;
  listed_completed_labs : nat;
  listed_name_of_completed_labs : list string
}.

Fixpoint build_ranking (lab_names : list string) (rows : list row)
    (ranking_list : list ranking_entry) : result (list ranking_entry) :=
  match rows with
  | [] => Ok ranking_list
  | r :: rows' =>
      let completed :=
        sum (map (fun _ => 1) (List.filter (is_yes r) lab_names)) in
      let names_of_lab := List.filter (is_yes r) lab_names in
      let! row_name := getitem r "name" in
      let! row_email := getitem r "email" in
      build_ranking lab_names rows'
        (ranking_list ++ [ {| entry_name := row_name;
                              entry_email := row_email;
                              completed := completed;
                              name_of_lab := names_of_lab |} ])
  end.

Section Tables.
Context (u : unicode).

Definition starts_token (s : text) : bool :=
  match s with
  | c :: _ => negb (isspace u c)
  | [] => false
  end.

(** [s.split()] *)
Fixpoint split (s : text) : list text :=
  match s with
  | [] => []
  | c :: s' =>
      if isspace u c then split s'
      else if starts_token s' then
        match split s' with
        | t :: ts => (c :: t) :: ts
        | [] => [[c]]
        end
      else [c] :: split s'
  end.

(** [get_initials(name)]: a name that is not a string has no [split]. *)
Definition get_initials (name : value) : result text :=
  match name with
  | Str s =>
      let parts := split s in
      if (1 <? length parts)%nat then
        let! p0 := item parts 0 in
        let! c0 := first_char p0 in
        let! p1 := item parts 1 in
        let! c1 := first_char p1 in
        Ok (upper u c0 ++ upper u c1)
      else if (0 <? length parts)%nat then
        let! p0 := item parts 0 in
        let! c0 := first_char p0 in
        Ok (upper u c0)
      else Ok []
  | Null | Bool _ | Int _ | Other => Raise AttributeError
  end.

Fixpoint add_derived (labs : list string) (rank : nat) (users : list summary)
    (final_participant_data : list participant) : result (list participant) :=
  match users with
  | [] => Ok final_participant_data
  | user :: users' =>
      let! user_initials := get_initials (name user) in
      let! pct := percentage_of labs (completed_labs user) in
      let user' := {| base := user;
                      rank := rank;
                      initials := user_initials;
                      badge_count := completed_labs user;
                      completion_percentage := pct |} in
      add_derived labs (S rank) users' (final_participant_data ++ [user'])
  end.

Definition get_processed_participant_data (labs : list string) (db : store)
    : result (list participant * pydict) :=
  match fetch db with
  | Raise _ => Ok ([], dict_zero labs)
  | Ok all_participants_raw =>
      let! processed := process_rows labs all_participants_raw [] (dict_zero labs) in
      let processed_participants := sort_desc completed_labs (fst processed) in
      let! final_participant_data := add_derived labs 1 processed_participants [] in
      Ok (final_participant_data, snd processed)
  end.

Definition get_stats (labs : list string) (db : store) : result home_data :=
  let! data := get_processed_participant_data labs db in
  let participant_data := fst data in
  let badge_completion_rate := snd data in
  let total_participants := length participant_data in
  if (total_participants =? 0)%nat then
    Ok {| total_participants := 0;
          home_completion_percentage := 0;
          average_progress := 0;
          top_performer := no_performer;
          badge_completion_rate := badge_completion_rate;
          badge_popularity := [] |}
  else
    let total_completed_all :=
      length (List.filter
                (fun p => (completed_labs (base p) =? length labs)%nat)
                participant_data) in
    let! completion_ratio := truediv total_completed_all total_participants in
    let completion_percentage := (completion_ratio * float_of_nat 100)%float in
    let total_badges :=
      sum (map (fun p => completed_labs (base p)) participant_data) in
    let! average_progress := truediv total_badges total_participants in
    let! top_performer_data := item participant_data 0 in
    let top_performer :=
      if (0 <? completed_labs (base top_performer_data))%nat then
        {| performer_name := name (base top_performer_data);
           performer_initials := Str (initials top_performer_data);
           badges := completed_labs (base top_performer_data) |}
      else no_performer in
    let badge_popularity := top_six badge_completion_rate in
    Ok {| total_participants := total_participants;
          home_completion_percentage := py_round completion_percentage;
          average_progress := py_round average_progress;
          top_performer := top_performer;
          badge_completion_rate := badge_completion_rate;
          badge_popularity := badge_popularity |}.

(** [get_participant_data] of the earlier implementation. *)
Fixpoint assign_ranks (rank : nat) (ranking_list : list ranking_entry)
    (participant_data : list listed) : result (list listed) :=
  match ranking_list with
  | [] => Ok participant_data
  | user :: users' =>
      let! user_initials := get_initials (entry_name user) in
      assign_ranks (S rank) users'
        (participant_data ++ [ {| listed_rank := rank;
                                  listed_name := entry_name user;
                                  listed_initials := user_initials;
                                  listed_completed_labs := completed user;
                                  listed_name_of_completed_labs := name_of_lab user |} ])
  end.

Definition get_participant_data (lab_names : list string) (db : store)
    : result (list listed) :=
  let! data := fetch db in
  let! ranking_list := build_ranking lab_names data [] in
  assign_ranks 1 (sort_desc completed ranking_list) [].

End Tables.

(** *** Closed forms and the conditions of the statements *)

(** A field that holds a string. *)
Definition is_str (v : value) : bool :=
  match v with
  | Str _ => true
  | _ => false
  end.

(** The row has no name, or its name is a string. *)
Definition name_ok (r : row) : bool :=
  match r !! "name" with
  | Some v => is_str v
  | None => true
  end.

(** The row has an email, and a name that is a string. *)
Definition legacy_ok (r : row) : bool :=
  match r !! "name", r !! "email" with
  | Some v, Some _ => is_str v
  | _, _ => false
  end.

Definition completed_in (labs : list string) (r : row) : list string :=
  List.filter (is_yes r) labs.

Definition summarize (labs : list string) (r : row) : summary :=
  {| name := get_or_na r "name";
     email := get_or_na r "email";
     completed_labs := length (completed_in labs r);
     name_of_completed_labs := completed_in labs r |}.

(** The initials of a name, [[]] where [get_initials] raises. *)
Definition initials_of (u : unicode) (name : value) : text :=
  match get_initials u name with
  | Ok s => s
  | Raise _ => []
  end.

Definition finalize (u : unicode) (labs : list string) (rank : nat)
    (user : summary) : participant :=
  {| base := user;
     rank := rank;
     initials := initials_of u (name user);
     badge_count := completed_labs user;
     completion_percentage := pct labs (completed_labs user) |}.

Fixpoint ranked (u : unicode) (labs : list string) (rank : nat)
    (users : list summary) : list participant :=
  match users with
  | [] => []
  | user :: users' => finalize u labs rank user :: ranked u labs (S rank) users'
  end.

Definition leaderboard (u : unicode) (labs : list string) (rows : list row)
    : list participant :=
  ranked u labs 1 (sort_desc completed_labs (map (summarize labs) rows)).

(** The rows a request works with. *)
Definition rows_of (db : store) : list row :=
  match db with
  | Reachable rows => rows
  | Unreachable => []
  end.

(** A token of a name and a run of whitespace. *)
Definition is_token (u : unicode) (t : text) : Prop :=
  t <> [] /\ forall c, In c t -> isspace u c = false.

Definition is_blank (u : unicode) (w : text) : Prop :=
  forall c, In c w -> isspace u c = true.

(** *** Tables

    What the two tables answer on the ASCII code points: the whitespace
    characters are 9..13 and 28..32, and [upper] maps a..z to A..Z and
    leaves the rest. *)
Definition ascii_space (c : N) : bool :=
  ((9 <=? c) && (c <=? 13) || (28 <=? c) && (c <=? 32))%N.

Definition ascii_upper (c : N) : N :=
  if ((97 <=? c) && (c <=? 122))%N then (c - 32)%N else c.

Definition agrees_on_ascii (u : unicode) : Prop :=
  forall c, (c < 128)%N ->
    isspace u c = ascii_space c /\ upper u c = [ascii_upper c].

(** A table for concrete inputs: the interpreter's answers on the code points
    below 256 (there U+0085 and U+00A0 are whitespace, the sharp s becomes
    "SS", the micro sign and y with diaeresis leave the range), with the
    further whitespace characters, and the identity for [upper] above 255. *)
Definition latin1 : unicode :=
  {| isspace := fun c =>
       if (c <? 128)%N then ascii_space c
       else ((c =? 133) || (c =? 160) || (c =? 5760)
             || (8192 <=? c) && (c <=? 8202)
             || (c =? 8232) || (c =? 8233) || (c =? 8239) || (c =? 8287)
             || (c =? 12288))%N;
     upper := fun c =>
       if (c <? 128)%N then [ascii_upper c]
       else if (c =? 223)%N then [83%N; 83%N]
       else if (c =? 181)%N then [924%N]
       else if (c =? 255)%N then [376%N]
       else if ((224 <=? c) && (c <=? 254) && negb (c =? 247))%N then [(c - 32)%N]
       else [c] |}.

End Dyn.

(** The row has both keys the earlier aggregator indexes. *)
Definition dyn_has_keys (r : Dyn.row) : bool :=
  match r !! "name", r !! "email" with
  | Some _, Some _ => true
  | _, _ => false
  end.

(** The element of [ranking_list] the earlier aggregator builds for a row
    that has both keys. *)
Definition dyn_entry_of (labs : list string) (r : Dyn.row) : Dyn.ranking_entry :=
  {| Dyn.entry_name := Dyn.get_or_na r "name";
     Dyn.entry_email := Dyn.get_or_na r "email";
     Dyn.completed := length (Dyn.completed_in labs r);
     Dyn.name_of_lab := Dyn.completed_in labs r |}.

(** The payload of the home endpoint without participants. *)
Definition dyn_empty_home (counts : pydict) : Dyn.home_data :=
  {| Dyn.total_participants := 0;
     Dyn.home_completion_percentage := 0;
     Dyn.average_progress := 0;
     Dyn.top_performer := Dyn.no_performer;
     Dyn.badge_completion_rate := counts;
     Dyn.badge_popularity := [] |}.

(** An ASCII string in the narrow sense: every character below 128. *)
Definition seven_bit (s : string) : Prop :=
  forall c, In c (list_ascii_of_string s) -> (N_of_ascii c < 128)%N.

(** * Properties *)

(** ** The model on small inputs *)

Example split_runs :
  split (String "009"%char "  Ada" ++ String "010"%char " Lovelace  ")%string
  = ["Ada"; "Lovelace"].
Proof. reflexivity. Qed.

Example initials_three_tokens : get_initials "grace brewster hopper" = Ok "GB".
Proof. reflexivity. Qed.

Example initials_of_digits : get_initials "42 x" = Ok "4X".
Proof. reflexivity. Qed.

Example sort_desc_keeps_ties :
  sort_desc snd [("a", 1); ("b", 3); ("c", 1); ("d", 3); ("e", 2)]
  = [("b", 3); ("d", 3); ("e", 2); ("a", 1); ("c", 1)].
Proof. reflexivity. Qed.

Example dict_set_keeps_position :
  dict_set "a" 5 (dict_zero ["a"; "b"; "a"]) = [("a", 5); ("b", 0)].
Proof. reflexivity. Qed.

Example round_ties_to_even :
  (percent 1 8, percent 3 8, percent 19 40, percent 7 100)
  = (Ok 12%Z, Ok 38%Z, Ok 48%Z, Ok 7%Z).
Proof. vm_compute. reflexivity. Qed.

Example division_by_zero : percent 3 0 = Raise ZeroDivisionError.
Proof. reflexivity. Qed.

Example leaderboard_of_two :
  map (fun p => (rank p, name (base p), completed_labs (base p),
                 completion_percentage p))
      (leaderboard LABS [row_none; row_all])
  = [(1, "A", 19, 100%Z); (2, "B", 0, 0%Z)].
Proof. vm_compute. reflexivity. Qed.

(** ** Facts about [split] *)

Lemma split_tokens_nonempty (s : string) : Forall (fun t => t <> "") (split s).
Proof.
  induction s as [|c s IH]; simpl; [constructor|].
  destruct (isspace c); [exact IH|].
  destruct (starts_token s).
  - destruct (split s) as [|t ts]; repeat constructor; try discriminate.
    now inversion IH.
  - constructor; [discriminate | exact IH].
Qed.

(** Whitespace in front of a name is skipped. *)
Lemma split_space (c : ascii) (s : string) :
  isspace c = true -> split (String c s) = split s.
Proof. intros H. simpl. now rewrite H. Qed.

(** A token followed by the end of the name, or by whitespace, is the next
    element of the result. *)
Lemma split_token (t s : string) :
  is_token t -> starts_token s = false -> split (t ++ s)%string = t :: split s.
Proof.
  intros [Hne Hws] Hs.
  induction t as [|c t IH]; [congruence|].
  change (String c t ++ s)%string with (String c (t ++ s)%string).
  cbn [split]. rewrite (Hws c) by (simpl; auto).
  destruct t as [|c' t].
  - change ("" ++ s)%string with s. now rewrite Hs.
  - assert (Hc' : isspace c' = false) by (apply Hws; simpl; auto).
    replace (starts_token (String c' t ++ s)%string) with true
      by (simpl; now rewrite Hc').
    rewrite IH; [reflexivity | discriminate |].
    intros a Ha. apply Hws. simpl. simpl in Ha. tauto.
Qed.

(** ** Initials of ASCII names *)

Lemma get_initials_spec (name : string) :
  match split name with
  | String c0 _ :: String c1 _ :: _ => get_initials name = Ok (upper c0 ++ upper c1)%string
  | [String c0 _] => get_initials name = Ok (upper c0)
  | [] => get_initials name = Ok ""
  | _ => False
  end.
Proof.
  unfold get_initials.
  pose proof (split_tokens_nonempty name) as Hne.
  destruct (split name) as [|t0 [|t1 ts]]; simpl.
  - reflexivity.
  - inversion Hne as [|? ? H0 _]; subst. destruct t0; [congruence | reflexivity].
  - inversion Hne as [|? ? H0 H1]; subst. inversion H1 as [|? ? H2 _]; subst.
    destruct t0; [congruence|]. destruct t1; [congruence | reflexivity].
Qed.

Lemma get_initials_total (name : string) : exists s, get_initials name = Ok s.
Proof.
  pose proof (get_initials_spec name) as H.
  destruct (split name) as [|[|c0 t0] [|[|c1 t1] ts]]; try contradiction; eauto.
Qed.

Lemma split_blank (w s : string) :
  is_blank w -> split (w ++ s)%string = split s.
Proof.
  induction w as [|c w IH]; intros Hw; [reflexivity|].
  change (String c w ++ s)%string with (String c (w ++ s)%string).
  rewrite split_space by (apply Hw; simpl; auto).
  apply IH. intros a Ha. apply Hw. simpl. auto.
Qed.

Lemma split_only_blank (w : string) : is_blank w -> split w = [].
Proof.
  induction w as [|c w IH]; intros Hw; [reflexivity|].
  rewrite split_space by (apply Hw; simpl; auto).
  apply IH. intros a Ha. apply Hw. simpl. auto.
Qed.

Lemma starts_token_blank (w s : string) :
  is_blank w -> w <> "" -> starts_token (w ++ s)%string = false.
Proof.
  destruct w as [|c w]; intros Hw Hne; [congruence|].
  simpl. rewrite (Hw c) by (simpl; auto). reflexivity.
Qed.

Lemma starts_token_all_blank (w : string) : is_blank w -> starts_token w = false.
Proof.
  destruct w as [|c w]; intros Hw; [reflexivity|].
  simpl. rewrite (Hw c) by (simpl; auto). reflexivity.
Qed.

(** ** The stable descending sort *)

Section SortFacts.
Context {A : Type} (key : A -> nat).

Lemma insert_desc_perm (x : A) (l : list A) :
  Permutation (insert_desc key x l) (x :: l).
Proof.
  induction l as [|y l IH]; simpl; [reflexivity|].
  destruct (key y <=? key x)%nat; [reflexivity|].
  rewrite IH. apply perm_swap.
Qed.

Lemma sort_desc_perm (l : list A) : Permutation (sort_desc key l) l.
Proof.
  induction l as [|x l IH]; simpl; [reflexivity|].
  rewrite insert_desc_perm. now constructor.
Qed.

Lemma sort_desc_length (l : list A) : length (sort_desc key l) = length l.
Proof. apply Permutation_length, sort_desc_perm. Qed.

Lemma insert_desc_sorted (x : A) (l : list A) :
  StronglySorted (desc key) l -> StronglySorted (desc key) (insert_desc key x l).
Proof.
  induction 1 as [|y l Hl IH Hy]; simpl; [repeat constructor|].
  destruct (key y <=? key x)%nat eqn:E.
  - apply Nat.leb_le in E.
    constructor; [now constructor|].
    constructor; [exact E|].
    eapply Forall_impl; [exact Hy|]. unfold desc. intros; lia.
  - apply Nat.leb_gt in E.
    constructor; [exact IH|].
    apply Forall_forall. intros z Hz.
    apply list_elem_of_In in Hz.
    apply (Permutation_in _ (insert_desc_perm x l)) in Hz.
    destruct Hz as [<-|Hz]; [unfold desc; lia|].
    rewrite Forall_forall in Hy. apply Hy. now apply list_elem_of_In.
Qed.

Lemma sort_desc_sorted (l : list A) : StronglySorted (desc key) (sort_desc key l).
Proof.
  induction l as [|x l IH]; simpl; [constructor|].
  now apply insert_desc_sorted.
Qed.

(** Stability: the elements of any one key are in their original order. *)
Lemma insert_desc_stable (c : nat) (x : A) (l : list A) :
  List.filter (fun a => (key a =? c)%nat) (insert_desc key x l)
  = List.filter (fun a => (key a =? c)%nat) (x :: l).
Proof.
  induction l as [|y l IH]; [reflexivity|].
  cbn [insert_desc].
  destruct (key y <=? key x)%nat eqn:E; [reflexivity|].
  apply Nat.leb_gt in E.
  cbn [List.filter] in *. rewrite IH.
  destruct (key x =? c)%nat eqn:Ex, (key y =? c)%nat eqn:Ey; try reflexivity.
  apply Nat.eqb_eq in Ex, Ey. lia.
Qed.

Lemma sort_desc_stable (c : nat) (l : list A) :
  List.filter (fun a => (key a =? c)%nat) (sort_desc key l)
  = List.filter (fun a => (key a =? c)%nat) l.
Proof.
  induction l as [|x l IH]; [reflexivity|].
  cbn [sort_desc fold_right]. fold (sort_desc key l).
  rewrite insert_desc_stable. cbn [List.filter]. now rewrite IH.
Qed.
End SortFacts.

Lemma sort_desc_map {A B : Type} (key : B -> nat) (f : A -> B) (l : list A) :
  sort_desc key (map f l) = map f (sort_desc (fun a => key (f a)) l).
Proof.
  induction l as [|x l IH]; [reflexivity|].
  cbn [map sort_desc fold_right].
  fold (sort_desc key (map f l)). fold (sort_desc (fun a => key (f a)) l).
  rewrite IH. generalize (sort_desc (fun a => key (f a)) l) as s.
  induction s as [|y s IHs]; [reflexivity|].
  cbn [map insert_desc]. destruct (key (f y) <=? key (f x))%nat; [reflexivity|].
  cbn [map]. now rewrite IHs.
Qed.

(** ** Insertion-ordered dicts *)

Lemma dict_set_keys_in (k : string) (v : nat) (d : pydict) :
  In k (dict_keys d) -> dict_keys (dict_set k v d) = dict_keys d.
Proof.
  induction d as [|[k' v'] d IH]; simpl; [tauto|].
  intros Hin. destruct (String.eqb_spec k k') as [->|Hne]; [reflexivity|].
  simpl. f_equal. apply IH. destruct Hin; congruence.
Qed.

Lemma dict_set_fresh (k : string) (v : nat) (d : pydict) :
  ~ In k (dict_keys d) -> dict_set k v d = d ++ [(k, v)].
Proof.
  induction d as [|[k' v'] d IH]; simpl; [reflexivity|].
  intros Hin. destruct (String.eqb_spec k k') as [->|Hne]; [tauto|].
  f_equal. apply IH. tauto.
Qed.

Lemma dict_get_set_eq (k : string) (v : nat) (d : pydict) :
  dict_get k (dict_set k v d) = Ok v.
Proof.
  induction d as [|[k' v'] d IH]; simpl.
  - now rewrite String.eqb_refl.
  - destruct (String.eqb_spec k k') as [->|Hne]; simpl.
    + now rewrite String.eqb_refl.
    + destruct (String.eqb_spec k k'); [congruence | exact IH].
Qed.

Lemma dict_get_set_ne (k k' : string) (v : nat) (d : pydict) :
  k <> k' -> dict_get k' (dict_set k v d) = dict_get k' d.
Proof.
  intros Hne. induction d as [|[k0 v0] d IH]; simpl.
  - destruct (String.eqb_spec k' k); [congruence | reflexivity].
  - destruct (String.eqb_spec k k0) as [->|Hne0]; simpl.
    + destruct (String.eqb_spec k' k0); [congruence | reflexivity].
    + now rewrite IH.
Qed.

Lemma dict_set_keys_incl (k k' : string) (v : nat) (d : pydict) :
  In k' (dict_keys d) -> In k' (dict_keys (dict_set k v d)).
Proof.
  induction d as [|[k0 v0] d IH]; simpl; [tauto|].
  destruct (String.eqb_spec k k0) as [->|Hne]; simpl; tauto.
Qed.

Lemma dict_set_keys_self (k : string) (v : nat) (d : pydict) :
  In k (dict_keys (dict_set k v d)).
Proof.
  induction d as [|[k0 v0] d IH]; simpl; [tauto|].
  destruct (String.eqb_spec k k0) as [->|Hne]; simpl; tauto.
Qed.

Lemma dict_get_in (k : string) (d : pydict) :
  In k (dict_keys d) -> exists v, dict_get k d = Ok v.
Proof.
  induction d as [|[k' v'] d IH]; simpl; [tauto|].
  intros Hin. destruct (String.eqb_spec k k') as [->|Hne]; [eauto|].
  apply IH. destruct Hin; congruence.
Qed.

Lemma dict_set_sum (k : string) (v v' : nat) (d : pydict) :
  dict_get k d = Ok v ->
  sum (values (dict_set k v' d)) + v = sum (values d) + v'.
Proof.
  induction d as [|[k0 v0] d IH]; simpl; [discriminate|].
  destruct (String.eqb_spec k k0) as [->|Hne]; simpl.
  - intros [= ->]. unfold values, sum in *. lia.
  - intros H. specialize (IH H). unfold values, sum in *. lia.
Qed.

Lemma dict_incr_ok (k : string) (d : pydict) :
  In k (dict_keys d) ->
  exists d', dict_incr k d = Ok d' /\
             dict_keys d' = dict_keys d /\
             sum (values d') = S (sum (values d)).
Proof.
  intros Hin. destruct (dict_get_in k d Hin) as [v Hv].
  exists (dict_set k (v + 1) d). unfold dict_incr. rewrite Hv. simpl.
  split; [reflexivity|]. split; [now apply dict_set_keys_in|].
  pose proof (dict_set_sum k v (v + 1) d Hv). lia.
Qed.

Lemma dict_incr_missing (k : string) (d : pydict) :
  ~ In k (dict_keys d) -> dict_incr k d = Raise (KeyError k).
Proof.
  intros Hin. unfold dict_incr.
  replace (dict_get k d) with (@Raise nat (KeyError k)); [reflexivity|].
  induction d as [|[k' v'] d IH]; simpl; [reflexivity|].
  simpl in Hin. destruct (String.eqb_spec k k'); [subst; tauto|]. apply IH. tauto.
Qed.

(** The comprehension [{lab: 0 for lab in labs}], from any starting dict. *)
Lemma fold_zero_keys (labs : list string) (d : pydict) (k : string) :
  In k (dict_keys d) \/ In k labs ->
  In k (dict_keys (fold_left (fun d lab => dict_set lab 0 d) labs d)).
Proof.
  revert d. induction labs as [|lab labs IH]; intros d; simpl; [tauto|].
  intros [H|[->|H]]; apply IH; auto using dict_set_keys_incl, dict_set_keys_self.
Qed.

Lemma fold_zero_get (labs : list string) (d : pydict) (k : string) :
  dict_get k d = Ok 0 \/ In k labs ->
  dict_get k (fold_left (fun d lab => dict_set lab 0 d) labs d) = Ok 0.
Proof.
  revert d. induction labs as [|lab labs IH]; intros d; simpl.
  - intros [H|[]]. exact H.
  - intros [H|[->|H]]; apply IH; auto.
    + left. destruct (String.eqb_spec lab k) as [->|Hne].
      * apply dict_get_set_eq.
      * now rewrite dict_get_set_ne.
    + left. apply dict_get_set_eq.
Qed.

Lemma fold_zero_values (labs : list string) (d : pydict) :
  Forall (fun kv => snd kv = 0) d ->
  Forall (fun kv => snd kv = 0)
         (fold_left (fun d lab => dict_set lab 0 d) labs d).
Proof.
  revert d. induction labs as [|lab labs IH]; intros d Hd; simpl; [exact Hd|].
  apply IH. clear IH. induction Hd as [|[k v] d Hv Hd IH]; simpl.
  - repeat constructor.
  - destruct (String.eqb k lab), (String.eqb lab k); constructor; auto.
Qed.

Lemma fold_zero_keys_only (labs : list string) (d : pydict) (k : string) :
  In k (dict_keys (fold_left (fun d lab => dict_set lab 0 d) labs d)) ->
  In k (dict_keys d) \/ In k labs.
Proof.
  revert d. induction labs as [|lab labs IH]; intros d; simpl; [tauto|].
  intros H. apply IH in H. destruct H as [H|H]; [|tauto].
  destruct (in_dec string_dec lab (dict_keys d)) as [Hin|Hout].
  - rewrite dict_set_keys_in in H by exact Hin. tauto.
  - rewrite dict_set_fresh in H by exact Hout.
    unfold dict_keys in *. rewrite map_app in H. apply in_app_or in H.
    simpl in H. tauto.
Qed.

Lemma fold_zero_nodup (labs : list string) (d : pydict) :
  NoDup (dict_keys d ++ labs) ->
  fold_left (fun d lab => dict_set lab 0 d) labs d
  = d ++ map (fun lab => (lab, 0)) labs.
Proof.
  revert d. induction labs as [|lab labs IH]; intros d Hnd; simpl.
  - now rewrite app_nil_r.
  - assert (Hout : ~ In lab (dict_keys d)).
    { pose proof Hnd as Hnd'. apply NoDup_app in Hnd' as (_ & Hdis & _).
      intros Hin. apply list_elem_of_In in Hin. apply (Hdis _ Hin). left. }
    rewrite dict_set_fresh by exact Hout.
    rewrite IH.
    + now rewrite <- app_assoc.
    + unfold dict_keys in *. rewrite map_app. simpl.
      rewrite <- app_assoc. exact Hnd.
Qed.

Lemma dict_zero_nodup (labs : list string) :
  NoDup labs -> dict_zero labs = map (fun lab => (lab, 0)) labs.
Proof. intros H. unfold dict_zero. now rewrite fold_zero_nodup. Qed.

Lemma dict_zero_keys (labs : list string) (k : string) :
  In k (dict_keys (dict_zero labs)) <-> In k labs.
Proof.
  split; intros H.
  - apply fold_zero_keys_only in H. simpl in H. tauto.
  - apply fold_zero_keys. now right.
Qed.

Lemma dict_zero_get (labs : list string) (k : string) :
  In k labs -> dict_get k (dict_zero labs) = Ok 0.
Proof. intros H. apply fold_zero_get. now right. Qed.

Lemma dict_zero_values (labs : list string) :
  Forall (fun kv => snd kv = 0) (dict_zero labs).
Proof. apply fold_zero_values. constructor. Qed.

Lemma dict_zero_sum (labs : list string) : sum (values (dict_zero labs)) = 0.
Proof.
  pose proof (dict_zero_values labs) as H.
  induction H as [|[k v] d Hv _ IH]; [reflexivity|].
  simpl in *. unfold values, sum in *. simpl. lia.
Qed.

(** ** The loops of the aggregator never raise, and what they compute *)

Lemma scan_labs_ok (r : row) (labs acc : list string) (counts : pydict) :
  (forall lab, In lab labs -> In lab (dict_keys counts)) ->
  exists counts',
    scan_labs r labs acc counts = Ok (acc ++ completed_in labs r, counts') /\
    dict_keys counts' = dict_keys counts /\
    sum (values counts') = sum (values counts) + length (completed_in labs r).
Proof.
  revert acc counts.
  induction labs as [|lab labs IH]; intros acc counts Hkeys.
  - exists counts. simpl. rewrite app_nil_r. auto.
  - cbn [scan_labs completed_in List.filter].
    destruct (is_yes r lab) eqn:Hyes.
    + destruct (dict_incr_ok lab counts) as (c1 & E1 & K1 & S1).
      { apply Hkeys. now left. }
      rewrite E1. cbn [bind].
      destruct (IH (acc ++ [lab]) c1) as (c2 & E2 & K2 & S2).
      { intros l Hl. rewrite K1. apply Hkeys. now right. }
      exists c2. rewrite E2, <- app_assoc. fold (completed_in labs r).
      repeat split; [congruence|]. simpl. lia.
    + destruct (IH acc counts) as (c2 & E2 & K2 & S2).
      { intros l Hl. apply Hkeys. now right. }
      exists c2. fold (completed_in labs r). auto.
Qed.

Lemma process_rows_ok (labs : list string) (rows : list row)
    (acc : list summary) (counts : pydict) :
  (forall lab, In lab labs -> In lab (dict_keys counts)) ->
  exists counts',
    process_rows labs rows acc counts
    = Ok (acc ++ map (summarize labs) rows, counts') /\
    dict_keys counts' = dict_keys counts /\
    sum (values counts')
    = sum (values counts) + sum (map completed_labs (map (summarize labs) rows)).
Proof.
  revert acc counts.
  induction rows as [|r rows IH]; intros acc counts Hkeys.
  - exists counts. simpl. rewrite app_nil_r. auto.
  - cbn [process_rows].
    destruct (scan_labs_ok r labs [] counts Hkeys) as (c1 & E1 & K1 & S1).
    rewrite E1. cbn [bind fst snd app].
    destruct (IH (acc ++ [summarize labs r]) c1) as (c2 & E2 & K2 & S2).
    { intros l Hl. rewrite K1. now apply Hkeys. }
    exists c2. unfold summarize in E2 at 1. rewrite E2, <- app_assoc.
    repeat split; [congruence|]. simpl. lia.
Qed.

Lemma get_initials_ok (name : string) : get_initials name = Ok (initials_of name).
Proof.
  unfold initials_of. destruct (get_initials_total name) as [s ->]. reflexivity.
Qed.

Lemma percentage_of_ok (labs : list string) (completed : nat) :
  percentage_of labs completed = Ok (pct labs completed).
Proof. destruct labs; reflexivity. Qed.

Lemma add_derived_ok (labs : list string) (k : nat) (users : list summary)
    (acc : list participant) :
  add_derived labs k users acc = Ok (acc ++ ranked labs k users).
Proof.
  revert k acc. induction users as [|u users IH]; intros k acc.
  - simpl. now rewrite app_nil_r.
  - cbn [add_derived ranked].
    rewrite get_initials_ok, percentage_of_ok. cbn [bind].
    rewrite IH, <- app_assoc. reflexivity.
Qed.

(** On a readable store the aggregator returns the sorted, ranked summaries
    and a dict over the catalog whose counts add up to the completions. *)
Lemma aggregator_ok (labs : list string) (rows : list row) :
  exists counts,
    get_processed_participant_data labs (Reachable rows)
    = Ok (leaderboard labs rows, counts) /\
    dict_keys counts = dict_keys (dict_zero labs) /\
    sum (values counts) = sum (map completed_labs (map (summarize labs) rows)).
Proof.
  unfold get_processed_participant_data. cbn [fetch].
  destruct (process_rows_ok labs rows [] (dict_zero labs)) as (c & E & K & S).
  { intros lab Hlab. now apply dict_zero_keys. }
  rewrite E. cbn [bind fst snd app].
  rewrite add_derived_ok. cbn [bind app].
  exists c. rewrite dict_zero_sum in S. auto.
Qed.

Lemma aggregator_unreachable (labs : list string) :
  get_processed_participant_data labs Unreachable = Ok ([], dict_zero labs).
Proof. reflexivity. Qed.

(** ** The ranked list *)

Lemma ranked_length (labs : list string) (k : nat) (users : list summary) :
  length (ranked labs k users) = length users.
Proof.
  revert k. induction users as [|u users IH]; intros k; simpl; auto.
Qed.

Lemma ranked_ranks (labs : list string) (k : nat) (users : list summary) :
  map rank (ranked labs k users) = seq k (length users).
Proof.
  revert k. induction users as [|u users IH]; intros k; simpl; [reflexivity|].
  now rewrite IH.
Qed.

Lemma ranked_base (labs : list string) (k : nat) (users : list summary) :
  map base (ranked labs k users) = users.
Proof.
  revert k. induction users as [|u users IH]; intros k; simpl; [reflexivity|].
  now rewrite IH.
Qed.

Lemma leaderboard_length (labs : list string) (rows : list row) :
  length (leaderboard labs rows) = length rows.
Proof.
  unfold leaderboard.
  now rewrite ranked_length, sort_desc_length, length_map.
Qed.

Lemma strongly_sorted_lookup {A : Type} (R : A -> A -> Prop) (l : list A)
    (i j : nat) (a b : A) :
  StronglySorted R l -> i < j -> l !! i = Some a -> l !! j = Some b -> R a b.
Proof.
  intros Hs. revert i j.
  induction Hs as [|x l Hs IH Hx]; intros i j Hij Ha Hb; [discriminate|].
  destruct j as [|j]; [lia|]. simpl in Hb.
  destruct i as [|i]; simpl in Ha.
  - injection Ha as <-. rewrite Forall_forall in Hx.
    apply Hx. eapply list_elem_of_lookup_2. exact Hb.
  - apply (IH i j); [lia | assumption | assumption].
Qed.

Lemma sum_perm (l l' : list nat) : Permutation l l' -> sum l = sum l'.
Proof.
  induction 1 as [|x l l' _ IH|x y l|l l' l'' _ IH1 _ IH2];
    unfold sum in *; simpl; lia.
Qed.

Lemma leaderboard_base (labs : list string) (rows : list row) :
  map base (leaderboard labs rows)
  = sort_desc completed_labs (map (summarize labs) rows).
Proof. apply ranked_base. Qed.

Lemma leaderboard_perm (labs : list string) (rows : list row) :
  Permutation (map base (leaderboard labs rows)) (map (summarize labs) rows).
Proof. rewrite leaderboard_base. apply sort_desc_perm. Qed.

Lemma leaderboard_sorted (labs : list string) (rows : list row) :
  StronglySorted (desc completed_labs) (map base (leaderboard labs rows)).
Proof. rewrite leaderboard_base. apply sort_desc_sorted. Qed.

Lemma leaderboard_lookup_rank (labs : list string) (rows : list row)
    (i : nat) (p : participant) :
  leaderboard labs rows !! i = Some p -> rank p = S i.
Proof.
  intros Hp.
  assert (H : map rank (leaderboard labs rows) !! i = Some (rank p)).
  { rewrite list_lookup_fmap, Hp. reflexivity. }
  unfold leaderboard in H. rewrite ranked_ranks in H.
  apply lookup_seq in H. lia.
Qed.

(** ** Ranks (claim C4) *)

(** C4.  For every catalog and every N rows read from the store, the
    aggregator returns N participants whose ranks, in output order, are
    1, 2, ..., N: every integer of 1..N once, also among ties; and a
    participant of larger rank never has a larger completed-count. *)
Theorem ranks_dense_and_ordered (labs : list string) (rows : list row) :
  exists ps counts,
    get_processed_participant_data labs (Reachable rows) = Ok (ps, counts) /\
    length ps = length rows /\
    map rank ps = seq 1 (length rows) /\
    (forall i j p q,
        ps !! i = Some p -> ps !! j = Some q ->
        (i < j <-> rank p < rank q) /\
        (rank p < rank q ->
         completed_labs (base q) <= completed_labs (base p))).
Proof.
  destruct (aggregator_ok labs rows) as (counts & E & _ & _).
  exists (leaderboard labs rows), counts.
  split; [exact E|]. split; [apply leaderboard_length|].
  split.
  { unfold leaderboard.
    now rewrite ranked_ranks, sort_desc_length, length_map. }
  intros i j p q Hp Hq.
  rewrite (leaderboard_lookup_rank _ _ _ _ Hp),
          (leaderboard_lookup_rank _ _ _ _ Hq).
  split; [lia|]. intros Hij.
  apply (strongly_sorted_lookup (desc completed_labs)
           (map base (leaderboard labs rows)) i j (base p) (base q)).
  - apply leaderboard_sorted.
  - lia.
  - rewrite list_lookup_fmap, Hp. reflexivity.
  - rewrite list_lookup_fmap, Hq. reflexivity.
Qed.

(** ** Stability (claim C5) *)

(** C5.  For every catalog and rows, the summaries the aggregator returns
    are a rearrangement of the summaries of the rows in which, for every
    completed-count, the participants having that count are in the order of
    their rows. *)
Theorem sort_preserves_input_order_of_ties (labs : list string) (rows : list row) :
  exists ps counts,
    get_processed_participant_data labs (Reachable rows) = Ok (ps, counts) /\
    Permutation (map base ps) (map (summarize labs) rows) /\
    forall c,
      List.filter (fun u => (completed_labs u =? c)%nat) (map base ps)
      = List.filter (fun u => (completed_labs u =? c)%nat)
                    (map (summarize labs) rows).
Proof.
  destruct (aggregator_ok labs rows) as (counts & E & _ & _).
  exists (leaderboard labs rows), counts.
  split; [exact E|]. split; [apply leaderboard_perm|].
  intros c. rewrite leaderboard_base. apply sort_desc_stable.
Qed.

(** ** Totals (claim C6) *)

(** C6.  For every catalog and every state of the store, the values of the
    returned labCounts add up to the completed_labs of the returned
    summaries. *)
Theorem lab_counts_sum (labs : list string) (db : store) :
  exists ps counts,
    get_processed_participant_data labs db = Ok (ps, counts) /\
    sum (values counts) = sum (map (fun p => completed_labs (base p)) ps).
Proof.
  destruct db as [rows|].
  - destruct (aggregator_ok labs rows) as (counts & E & _ & S).
    exists (leaderboard labs rows), counts. split; [exact E|].
    rewrite S. apply sum_perm.
    rewrite <- (map_map base completed_labs).
    apply Permutation_map. symmetry. apply leaderboard_perm.
  - exists [], (dict_zero labs). split; [reflexivity|].
    apply dict_zero_sum.
Qed.

(** ** Percentages of the summaries (claim C8) *)

Lemma ranked_percentage (labs : list string) (k : nat) (users : list summary)
    (p : participant) :
  In p (ranked labs k users) ->
  initials p = initials_of (name (base p)) /\
  badge_count p = completed_labs (base p) /\
  completion_percentage p = pct labs (completed_labs (base p)).
Proof.
  revert k. induction users as [|u users IH]; intros k; simpl; [tauto|].
  intros [<-|H]; [auto | eauto].
Qed.

Lemma completed_in_bound (labs : list string) (r : row) :
  length (completed_in labs r) <= length labs.
Proof. apply List.filter_length_le. Qed.

Lemma leaderboard_completed_bound (labs : list string) (rows : list row)
    (p : participant) :
  In p (leaderboard labs rows) -> completed_labs (base p) <= length labs.
Proof.
  intros Hp. apply (in_map base) in Hp.
  apply (Permutation_in _ (leaderboard_perm labs rows)) in Hp.
  apply in_map_iff in Hp as (r & <- & _). apply completed_in_bound.
Qed.

(** On the nineteen-lab catalog the rounded binary64 value is the integer
    nearest to [100 * c / 19]. *)
Lemma pct_LABS_nearest (c : nat) :
  c <= 19 ->
  (2 * Z.abs (19 * pct LABS c - 100 * Z.of_nat c) < 19)%Z.
Proof.
  intros Hc.
  do 20 (destruct c as [|c]; [vm_compute; reflexivity|]). lia.
Qed.

(** C8.  Every summary the aggregator produces has
    completion_percentage = round(completed_labs / len(catalog) * 100), and 0
    for an empty catalog.  On the catalog of the program that value is the
    integer nearest to 100 * completed_labs / 19: it is 0 for a participant
    without completed labs and 100 for one who completed every lab. *)
Theorem summary_percentage :
  (forall labs rows, exists ps counts,
      get_processed_participant_data labs (Reachable rows) = Ok (ps, counts) /\
      forall p, In p ps ->
        percentage_of labs (completed_labs (base p))
        = Ok (completion_percentage p) /\
        (labs <> [] ->
         completion_percentage p
         = py_round (float_of_nat (completed_labs (base p))
                     / float_of_nat (length labs) * float_of_nat 100)%float)) /\
  (forall rows, exists ps counts,
      get_processed_participant_data LABS (Reachable rows) = Ok (ps, counts) /\
      forall p, In p ps ->
        (2 * Z.abs (19 * completion_percentage p
                    - 100 * Z.of_nat (completed_labs (base p))) < 19)%Z /\
        (completed_labs (base p) = 0 -> completion_percentage p = 0%Z) /\
        (completed_labs (base p) = length LABS ->
         completion_percentage p = 100%Z)).
Proof.
  split.
  - intros labs rows.
    destruct (aggregator_ok labs rows) as (counts & E & _ & _).
    exists (leaderboard labs rows), counts. split; [exact E|].
    intros p Hp. apply ranked_percentage in Hp as (_ & _ & ->).
    split; [apply percentage_of_ok|].
    destruct labs; [congruence | reflexivity].
  - intros rows.
    destruct (aggregator_ok LABS rows) as (counts & E & _ & _).
    exists (leaderboard LABS rows), counts. split; [exact E|].
    intros p Hp.
    pose proof (leaderboard_completed_bound _ _ _ Hp) as Hb.
    apply ranked_percentage in Hp as (_ & _ & ->).
    split; [apply pct_LABS_nearest; exact Hb|].
    split; intros ->; vm_compute; reflexivity.
Qed.

(** The theorem on a store with a participant who completed every lab and
    one who completed none. *)
Lemma summary_percentage_witness :
  exists ps counts,
    get_processed_participant_data LABS
      (Reachable [ list_to_map (("name", "B") :: ("email", "b@example.org") :: []);
                   list_to_map (("name", "A") :: ("email", "a@example.org")
                                  :: map (fun lab => (lab, "Yes")) LABS) ])
    = Ok (ps, counts) /\
    map (fun p => (name (base p), completion_percentage p)) ps
    = [("A", 100%Z); ("B", 0%Z)].
Proof.
  destruct (proj2 summary_percentage
              [ list_to_map (("name", "B") :: ("email", "b@example.org") :: []);
                list_to_map (("name", "A") :: ("email", "a@example.org")
                               :: map (fun lab => (lab, "Yes")) LABS) ])
    as (ps & counts & E & _).
  exists ps, counts. split; [exact E|].
  vm_compute in E. injection E as <- _. vm_compute. reflexivity.
Defined.

(** ** The home endpoint of [src/app.py] *)

Lemma filter_map_length {A B : Type} (f : B -> bool) (g : A -> B) (l : list A) :
  length (List.filter f (map g l)) = length (List.filter (fun a => f (g a)) l).
Proof.
  induction l as [|a l IH]; [reflexivity|].
  simpl. destruct (f (g a)); simpl; now rewrite IH.
Qed.

Lemma leaderboard_fully_finished (labs : list string) (rows : list row) :
  length (List.filter
            (fun p => (completed_labs (base p) =? length labs)%nat)
            (leaderboard labs rows))
  = fully_finished labs rows.
Proof.
  rewrite <- (filter_map_length
                (fun u => (completed_labs u =? length labs)%nat) base).
  rewrite leaderboard_base, sort_desc_stable.
  now rewrite filter_map_length.
Qed.

Lemma get_stats_no_participants (labs : list string) (db : store)
    (counts : pydict) :
  get_processed_participant_data labs db = Ok ([], counts) ->
  get_stats labs db = Ok (empty_home counts).
Proof. intros E. unfold get_stats. rewrite E. reflexivity. Qed.

Lemma get_stats_some_participants (labs : list string) (rows : list row) :
  rows <> [] ->
  exists counts first,
    get_processed_participant_data labs (Reachable rows)
    = Ok (leaderboard labs rows, counts) /\
    dict_keys counts = dict_keys (dict_zero labs) /\
    leaderboard labs rows !! 0 = Some first /\
    get_stats labs (Reachable rows)
    = Ok {| Home.total_participants := length rows;
            Home.completion_percentage :=
              py_round (float_of_nat (fully_finished labs rows)
                        / float_of_nat (length rows) * float_of_nat 100)%float;
            Home.average_progress :=
              py_round (float_of_nat
                          (sum (map (fun p => completed_labs (base p))
                                    (leaderboard labs rows)))
                        / float_of_nat (length rows))%float;
            Home.top_performer := performer_of first;
            Home.badge_completion_rate := counts;
            Home.badge_popularity := top_six counts |}.
Proof.
  intros Hne.
  destruct (aggregator_ok labs rows) as (counts & E & K & _).
  pose proof (leaderboard_length labs rows) as Hlen.
  destruct (leaderboard labs rows !! 0) as [first|] eqn:H0.
  2: { apply lookup_ge_None in H0. rewrite Hlen in H0.
       destruct rows; simpl in H0; [congruence | lia]. }
  exists counts, first. split; [exact E|]. split; [exact K|].
  split; [reflexivity|].
  unfold get_stats. rewrite E. cbn [bind fst snd]. rewrite Hlen.
  destruct (length rows =? 0)%nat eqn:E0.
  { apply Nat.eqb_eq in E0. destruct rows; [congruence | discriminate]. }
  unfold truediv. rewrite E0. cbn [bind].
  unfold item. rewrite H0. cbn [bind].
  rewrite leaderboard_fully_finished. reflexivity.
Qed.

(** ** Order-preserving selections *)

Lemma filter_sublist {A : Type} (f : A -> bool) (l : list A) :
  List.filter f l `sublist_of` l.
Proof.
  induction l as [|a l IH]; simpl; [constructor|].
  destruct (f a); now constructor.
Qed.

Lemma filter_take_sublist {A : Type} (f : A -> bool) (n : nat) (l : list A) :
  List.filter f (take n l) `sublist_of` List.filter f l.
Proof.
  revert n. induction l as [|a l IH]; intros [|n]; simpl;
    try apply sublist_nil_l.
  destruct (f a); [constructor|]; apply IH.
Qed.

Lemma map_sublist {A B : Type} (g : A -> B) (l1 l2 : list A) :
  l1 `sublist_of` l2 -> map g l1 `sublist_of` map g l2.
Proof. induction 1; simpl; now constructor. Qed.

Lemma sublist_lookup_order {A : Type} (l1 l2 : list A) (i j : nat) (a b : A) :
  l1 `sublist_of` l2 -> i < j -> l1 !! i = Some a -> l1 !! j = Some b ->
  exists i' j', i' < j' /\ l2 !! i' = Some a /\ l2 !! j' = Some b.
Proof.
  intros Hs. revert i j.
  induction Hs as [|x l1 l2 Hs IH|x l1 l2 Hs IH]; intros i j Hij Ha Hb.
  - discriminate.
  - destruct j as [|j]; [lia|]. simpl in Hb.
    destruct i as [|i]; simpl in Ha.
    + injection Ha as <-.
      apply list_elem_of_lookup_2 in Hb.
      apply (elem_of_sublist _ _ _ Hb) in Hs.
      apply list_elem_of_lookup_1 in Hs as [j' Hj'].
      exists 0, (S j'). repeat split; [lia | assumption].
    + destruct (IH i j) as (i' & j' & H1 & H2 & H3); [lia | assumption..|].
      exists (S i'), (S j'). repeat split; [lia | assumption..].
  - destruct (IH i j) as (i' & j' & H1 & H2 & H3); [assumption..|].
    exists (S i'), (S j'). repeat split; [lia | assumption..].
Qed.

Lemma filter_lookup_order {A : Type} (f : A -> bool) (l : list A)
    (i j : nat) (a b : A) :
  i < j -> l !! i = Some a -> l !! j = Some b -> f a = true -> f b = true ->
  exists i' j', i' < j' /\
                List.filter f l !! i' = Some a /\ List.filter f l !! j' = Some b.
Proof.
  revert i j. induction l as [|x l IH]; intros i j Hij Ha Hb Fa Fb;
    [discriminate|].
  destruct j as [|j]; [lia|]. simpl in Hb.
  destruct i as [|i]; simpl in Ha.
  - injection Ha as ->. simpl. rewrite Fa.
    assert (Hin : In b (List.filter f l)).
    { apply List.filter_In. split; [|exact Fb].
      apply list_elem_of_In. eapply list_elem_of_lookup_2. exact Hb. }
    apply list_elem_of_In, list_elem_of_lookup_1 in Hin as [j' Hj'].
    exists 0, (S j'). repeat split; [lia | assumption].
  - destruct (IH i j) as (i' & j' & H1 & H2 & H3); [lia | assumption..|].
    simpl. destruct (f x).
    + exists (S i'), (S j'). repeat split; [lia | assumption..].
    + exists i', j'. auto.
Qed.

Lemma strongly_sorted_take {A : Type} (R : A -> A -> Prop) (n : nat) (l : list A) :
  StronglySorted R l -> StronglySorted R (take n l).
Proof.
  intros Hs. revert n.
  induction Hs as [|x l Hs IH Hx]; intros [|n]; simpl; try constructor.
  - apply IH.
  - rewrite Forall_forall in *. intros y Hy. apply Hx.
    eapply elem_of_sublist; [exact Hy | apply sublist_take].
Qed.

(** ** The six most completed labs *)

Lemma top_six_length (d : pydict) : length (top_six d) <= 6.
Proof. unfold top_six. rewrite length_take. lia. Qed.

Lemma top_six_sorted (d : pydict) : StronglySorted (desc snd) (top_six d).
Proof. apply strongly_sorted_take, sort_desc_sorted. Qed.

Lemma top_six_entries (d : pydict) (e : string * nat) :
  In e (top_six d) -> In e (items d).
Proof.
  intros H. apply (Permutation_in _ (sort_desc_perm snd (items d))).
  apply list_elem_of_In. apply list_elem_of_In in H.
  eapply elem_of_sublist; [exact H | apply sublist_take].
Qed.

(** Entries of one count are in the order of the dict. *)
Lemma top_six_ties (d : pydict) (c : nat) :
  List.filter (fun e => (snd e =? c)%nat) (top_six d)
  `sublist_of` List.filter (fun e => (snd e =? c)%nat) (items d).
Proof.
  unfold top_six.
  rewrite <- (sort_desc_stable snd c (items d)).
  apply filter_take_sublist.
Qed.

Lemma top_six_order (d : pydict) (i j : nat) (k1 k2 : string) (c1 c2 : nat) :
  i < j -> top_six d !! i = Some (k1, c1) -> top_six d !! j = Some (k2, c2) ->
  c2 <= c1 /\
  (c1 = c2 ->
   exists i' j', i' < j' /\
                 dict_keys d !! i' = Some k1 /\ dict_keys d !! j' = Some k2).
Proof.
  intros Hij H1 H2. split.
  - apply (strongly_sorted_lookup (desc snd) (top_six d) i j (k1, c1) (k2, c2));
      auto using top_six_sorted.
  - intros <-.
    destruct (filter_lookup_order (fun e => (snd e =? c1)%nat) (top_six d)
                i j (k1, c1) (k2, c1)) as (i0 & j0 & H0 & Hi0 & Hj0);
      try assumption; try apply Nat.eqb_refl.
    destruct (sublist_lookup_order _ _ i0 j0 (k1, c1) (k2, c1)
                (top_six_ties d c1) H0 Hi0 Hj0) as (i1 & j1 & H3 & Hi1 & Hj1).
    destruct (sublist_lookup_order _ _ i1 j1 (k1, c1) (k2, c1)
                (filter_sublist _ (items d)) H3 Hi1 Hj1)
      as (i' & j' & H' & Hi' & Hj').
    exists i', j'. split; [exact H'|]. unfold dict_keys, items in *.
    rewrite !list_lookup_fmap, Hi', Hj'. auto.
Qed.

Lemma LABS_NoDup : NoDup LABS.
Proof. apply (bool_decide_eq_true_1 (NoDup LABS)). vm_compute. reflexivity. Qed.

Lemma dict_keys_LABS (counts : pydict) :
  dict_keys counts = dict_keys (dict_zero LABS) -> dict_keys counts = LABS.
Proof.
  intros ->. vm_compute. reflexivity.
Qed.

(** ** Badge popularity (claim C7) *)

(** C7.  Whatever the state of the store, the home endpoint of [src/app.py]
    answers, and its badge_popularity has at most six entries, all of them
    entries of badge_completion_rate; an entry never has a smaller count than
    a later one; and of two entries with the same count the earlier one is
    the lab that comes first in the catalog. *)
Theorem badge_popularity_top_six (db : store) :
  exists payload,
    get_stats LABS db = Ok payload /\
    length (Home.badge_popularity payload) <= 6 /\
    (forall e, In e (Home.badge_popularity payload) ->
               In e (items (Home.badge_completion_rate payload))) /\
    forall i j lab1 lab2 c1 c2,
      i < j ->
      Home.badge_popularity payload !! i = Some (lab1, c1) ->
      Home.badge_popularity payload !! j = Some (lab2, c2) ->
      c2 <= c1 /\
      (c1 = c2 ->
       exists i' j', i' < j' /\ LABS !! i' = Some lab1 /\ LABS !! j' = Some lab2).
Proof.
  assert (Hempty : forall counts,
             get_stats LABS db = Ok (empty_home counts) ->
             exists payload,
               get_stats LABS db = Ok payload /\
               length (Home.badge_popularity payload) <= 6 /\
               (forall e, In e (Home.badge_popularity payload) ->
                          In e (items (Home.badge_completion_rate payload))) /\
               forall i j lab1 lab2 c1 c2,
                 i < j ->
                 Home.badge_popularity payload !! i = Some (lab1, c1) ->
                 Home.badge_popularity payload !! j = Some (lab2, c2) ->
                 c2 <= c1 /\
                 (c1 = c2 ->
                  exists i' j', i' < j' /\
                                LABS !! i' = Some lab1 /\ LABS !! j' = Some lab2)).
  { intros counts E. exists (empty_home counts). split; [exact E|]. simpl.
    split; [lia|]. split; [tauto|]. intros; discriminate. }
  destruct db as [[|r rows]|].
  - destruct (aggregator_ok LABS []) as (counts & E & _ & _).
    apply (Hempty counts). now apply get_stats_no_participants.
  - destruct (get_stats_some_participants LABS (r :: rows))
      as (counts & first & _ & K & _ & E); [discriminate|].
    eexists. split; [exact E|]. cbn [Home.badge_popularity Home.badge_completion_rate].
    split; [apply top_six_length|]. split; [apply top_six_entries|].
    intros i j lab1 lab2 c1 c2 Hij H1 H2.
    rewrite <- (dict_keys_LABS counts K). now apply (top_six_order counts i j).
  - apply (Hempty (dict_zero LABS)). reflexivity.
Qed.

(** ** An unreachable store (claim C3) *)

(** C3.  When the read of the store raises, the aggregator of [src/app.py]
    returns no summary and a labCounts dict whose keys are the catalog labs,
    each with count 0, and both of its endpoints answer with status 200: the
    home endpoint with the all-zero payload, the progress endpoint with the
    catalog and no participant.  The earlier implementation has no handler:
    there the same failure leaves both endpoints with the exception, status
    500. *)
Theorem store_failure_handling :
  (forall labs,
      get_processed_participant_data labs Unreachable = Ok ([], dict_zero labs) /\
      (forall lab, In lab labs -> dict_get lab (dict_zero labs) = Ok 0) /\
      (forall lab, In lab (dict_keys (dict_zero labs)) <-> In lab labs) /\
      Forall (fun entry => snd entry = 0) (items (dict_zero labs)) /\
      get_stats labs Unreachable = Ok (empty_home (dict_zero labs)) /\
      http_status (get_stats labs Unreachable) = 200 /\
      get_progress_data labs Unreachable
      = Ok {| Progress.labs := labs; Progress.participants := [] |} /\
      http_status (get_progress_data labs Unreachable) = 200) /\
  dict_zero LABS = map (fun lab => (lab, 0)) LABS /\
  (forall lab_names labs,
      Legacy.get_participant_data lab_names Unreachable = Raise StoreError /\
      Legacy.get_stats lab_names labs Unreachable = Raise StoreError /\
      http_status (Legacy.get_stats lab_names labs Unreachable) = 500 /\
      Legacy.get_progress_data lab_names labs Unreachable = Raise StoreError /\
      http_status (Legacy.get_progress_data lab_names labs Unreachable) = 500).
Proof.
  split; [|split].
  - intros labs. split; [reflexivity|].
    split; [apply dict_zero_get|]. split; [apply dict_zero_keys|].
    split; [apply dict_zero_values|]. repeat split.
  - apply dict_zero_nodup, LABS_NoDup.
  - intros lab_names labs. repeat split.
Qed.

(** ** The completion percentage of the home endpoint (claim C1) *)

(** C1.  For every catalog and every non-empty set of rows the home endpoint
    of [src/app.py] answers with completion_percentage =
    round((rows that have every catalog lab completed / rows) * 100); two
    rows of which one has all nineteen labs give 50.  The earlier
    implementation divides the sum of the completed-counts by twenty times
    the number of participants instead: for the single row with all nineteen
    labs it answers 95 where the fully-finished rate is 100. *)
Theorem home_completion_percentage :
  (forall labs rows,
      rows <> [] ->
      exists payload,
        get_stats labs (Reachable rows) = Ok payload /\
        Home.total_participants payload = length rows /\
        percent (fully_finished labs rows) (length rows)
        = Ok (Home.completion_percentage payload) /\
        Home.completion_percentage payload
        = py_round (float_of_nat (fully_finished labs rows)
                    / float_of_nat (length rows) * float_of_nat 100)%float) /\
  (exists payload,
      get_stats LABS (Reachable [row_all; row_none]) = Ok payload /\
      Home.completion_percentage payload = 50%Z) /\
  (exists payload,
      Legacy.get_stats Legacy.LAB_NAMES LABS (Reachable [row_all]) = Ok payload /\
      Home.completion_percentage payload = 95%Z /\
      fully_finished LABS [row_all] = 1 /\
      percent (fully_finished LABS [row_all]) (length [row_all]) = Ok 100%Z).
Proof.
  split; [|split].
  - intros labs rows Hne.
    destruct (get_stats_some_participants labs rows Hne)
      as (counts & first & _ & _ & _ & E).
    eexists. split; [exact E|]. cbn [Home.total_participants Home.completion_percentage].
    split; [reflexivity|]. split; [|reflexivity].
    unfold percent, truediv.
    destruct (length rows =? 0)%nat eqn:E0; [|reflexivity].
    apply Nat.eqb_eq in E0. destruct rows; [congruence | discriminate].
  - eexists. split; [vm_compute; reflexivity | reflexivity].
  - eexists. split; [vm_compute; reflexivity|]. repeat split.
Qed.

(** The theorem at the rows of the specification's example, in the other
    order. *)
Lemma home_completion_percentage_witness :
  exists payload,
    get_stats LABS (Reachable [row_none; row_all]) = Ok payload /\
    Home.completion_percentage payload = 50%Z.
Proof.
  destruct (proj1 home_completion_percentage LABS [row_none; row_all])
    as (payload & E & _ & _ & Hp); [discriminate|].
  exists payload. split; [exact E|]. rewrite Hp. vm_compute. reflexivity.
Defined.

(** ** The earlier implementation against [src/app.py] (claim C2) *)

Lemma sum_ones {A : Type} (l : list A) : sum (map (fun _ => 1) l) = length l.
Proof. induction l as [|a l IH]; [reflexivity|]. unfold sum in *. simpl. lia. Qed.

Lemma getitem_present (r : row) (key : string) :
  is_Some (r !! key) -> getitem r key = Ok (get_or_na r key).
Proof. intros [v Hv]. unfold getitem, get_or_na. now rewrite Hv. Qed.

Lemma build_ranking_ok (labs : list string) (rows : list row)
    (acc : list Legacy.ranking_entry) :
  Forall has_identity rows ->
  Legacy.build_ranking labs rows acc
  = Ok (acc ++ map entry_of (map (summarize labs) rows)).
Proof.
  intros Hrows. revert acc.
  induction Hrows as [|r rows [Hname Hemail] _ IH]; intros acc.
  - simpl. now rewrite app_nil_r.
  - cbn [Legacy.build_ranking].
    rewrite (getitem_present r "name" Hname), (getitem_present r "email" Hemail).
    cbn [bind]. rewrite IH, <- app_assoc, sum_ones. reflexivity.
Qed.

Lemma assign_ranks_ok (labs : list string) (k : nat) (users : list summary)
    (acc : list Legacy.participant) :
  Legacy.assign_ranks k (map entry_of users) acc
  = Ok (acc ++ map forget_email (ranked labs k users)).
Proof.
  revert k acc. induction users as [|u users IH]; intros k acc.
  - simpl. now rewrite app_nil_r.
  - cbn [map Legacy.assign_ranks ranked]. cbn [entry_of Legacy.entry_name].
    rewrite get_initials_ok. cbn [bind].
    rewrite IH, <- app_assoc. reflexivity.
Qed.

(** On rows that have a name and an email the earlier aggregator lists the
    participants of [src/app.py], in the same order, without their email. *)
Lemma legacy_listing_ok (labs : list string) (rows : list row) :
  Forall has_identity rows ->
  Legacy.get_participant_data labs (Reachable rows)
  = Ok (map forget_email (leaderboard labs rows)).
Proof.
  intros Hrows. unfold Legacy.get_participant_data. cbn [fetch bind].
  rewrite (build_ranking_ok labs rows [] Hrows). cbn [bind app].
  rewrite (sort_desc_map Legacy.completed entry_of).
  change (fun a => Legacy.completed (entry_of a)) with completed_labs.
  apply (assign_ranks_ok labs).
Qed.

Lemma add_progress_ok (labs : list string) (ps : list Legacy.participant) :
  labs <> [] ->
  Legacy.add_progress labs ps = Ok (map (with_progress labs) ps).
Proof.
  intros Hlabs. induction ps as [|p ps IH]; [reflexivity|].
  cbn [Legacy.add_progress map]. rewrite IH.
  unfold percent, truediv.
  destruct labs as [|lab labs]; [congruence|]. reflexivity.
Qed.

Lemma legacy_dict_of (labs : list string) (k : nat) (users : list summary)
    (p : participant) :
  In p (ranked labs k users) ->
  legacy_to_dict (with_progress labs (forget_email p))
  = delete "email" (to_dict p).
Proof.
  intros Hp. apply ranked_percentage in Hp as (_ & Hb & Hc).
  unfold legacy_to_dict, to_dict, with_progress, forget_email. simpl.
  rewrite Hb, Hc.
  apply map_eq. intros key.
  destruct (decide (key = "email")) as [->|Hne].
  - rewrite lookup_delete_eq. reflexivity.
  - rewrite lookup_delete_ne by congruence.
    repeat (rewrite lookup_insert; case_decide; subst; try congruence);
      try reflexivity.
    all: repeat (rewrite lookup_insert; case_decide; subst; try congruence);
      reflexivity.
Qed.

(** C2.  On the catalog of the program, for every list of rows read from the
    store in which each row has a name and an email, both progress endpoints
    answer, with the same catalog and with participants in the same order
    whose dicts agree on rank, name, initials, completed_labs,
    name_of_completed_labs, badge_count and completion_percentage: the dicts
    of the earlier implementation are those of [src/app.py] without the key
    email, which [src/app.py] alone emits. *)
Theorem legacy_agrees_except_email (rows : list row) :
  Forall has_identity rows ->
  exists new old,
    get_progress_data LABS (Reachable rows) = Ok new /\
    Legacy.get_progress_data Legacy.LAB_NAMES LABS (Reachable rows) = Ok old /\
    Legacy.labs old = Progress.labs new /\
    map legacy_to_dict (Legacy.participants old)
    = map (fun p => delete "email" (to_dict p)) (Progress.participants new) /\
    Forall (fun p => to_dict p !! "email" = Some (VStr (email (base p))))
           (Progress.participants new).
Proof.
  intros Hrows.
  destruct (aggregator_ok LABS rows) as (counts & E & _ & _).
  exists {| Progress.labs := LABS; Progress.participants := leaderboard LABS rows |},
         {| Legacy.labs := LABS;
            Legacy.participants :=
              map (with_progress LABS) (map forget_email (leaderboard LABS rows)) |}.
  split; [unfold get_progress_data; now rewrite E|].
  split.
  { unfold Legacy.get_progress_data, Legacy.LAB_NAMES.
    rewrite (legacy_listing_ok LABS rows Hrows). cbn [bind].
    rewrite add_progress_ok by discriminate. reflexivity. }
  split; [reflexivity|]. cbn [Legacy.participants Progress.participants].
  split.
  - rewrite !map_map. apply map_ext_in. intros p Hp.
    exact (legacy_dict_of LABS 1 _ p Hp).
  - apply Forall_forall. intros p _. unfold to_dict.
    rewrite lookup_insert_ne by discriminate. apply lookup_insert_eq.
Qed.

(** The theorem on the two rows of the specification's example. *)
Lemma legacy_agrees_except_email_witness :
  exists new old,
    get_progress_data LABS (Reachable [row_none; row_all]) = Ok new /\
    Legacy.get_progress_data Legacy.LAB_NAMES LABS (Reachable [row_none; row_all])
    = Ok old /\
    map legacy_to_dict (Legacy.participants old)
    = map (fun p => delete "email" (to_dict p)) (Progress.participants new).
Proof.
  assert (H : Forall has_identity [row_none; row_all]).
  { repeat constructor; eexists; vm_compute; reflexivity. }
  destruct (legacy_agrees_except_email [row_none; row_all] H)
    as (new & old & E1 & E2 & _ & E3 & _).
  exists new, old. auto.
Defined.

(** The two outputs differ on the single row of a participant without
    completed labs: the dict of [src/app.py] has an email, the other has
    none. *)
Lemma legacy_output_differs :
  exists new old,
    get_progress_data LABS (Reachable [row_none]) = Ok new /\
    Legacy.get_progress_data Legacy.LAB_NAMES LABS (Reachable [row_none]) = Ok old /\
    map to_dict (Progress.participants new)
    <> map legacy_to_dict (Legacy.participants old).
Proof.
  eexists. eexists.
  split; [vm_compute; reflexivity|]. split; [vm_compute; reflexivity|].
  intros H.
  apply (f_equal (fun l => match l with
                           | d :: _ => d !! "email"
                           | [] => None
                           end)) in H.
  vm_compute in H. discriminate.
Qed.

(** A row without a name: [src/app.py] lists it as "N/A", the earlier
    implementation raises [KeyError]. *)
Lemma legacy_raises_without_name :
  (exists ps counts,
      get_processed_participant_data LABS
        (Reachable [list_to_map [("email", "c@example.org")]]) = Ok (ps, counts) /\
      map (fun p => name (base p)) ps = ["N/A"]) /\
  Legacy.get_participant_data Legacy.LAB_NAMES
    (Reachable [list_to_map [("email", "c@example.org")]])
  = Raise (KeyError "name").
Proof.
  split; [|vm_compute; reflexivity].
  eexists. eexists. split; vm_compute; reflexivity.
Qed.

(** ** The counts per lab *)

Lemma dict_get_at (pre post : pydict) (lab : string) (v : nat) :
  ~ In lab (dict_keys pre) -> dict_get lab (pre ++ (lab, v) :: post) = Ok v.
Proof.
  intros Hout. induction pre as [|[k w] pre IH]; cbn [app dict_get].
  - now rewrite String.eqb_refl.
  - simpl in Hout. destruct (String.eqb_spec lab k) as [->|Hne]; [tauto|].
    apply IH. tauto.
Qed.

Lemma dict_set_at (pre post : pydict) (lab : string) (v v' : nat) :
  ~ In lab (dict_keys pre) ->
  dict_set lab v' (pre ++ (lab, v) :: post) = pre ++ (lab, v') :: post.
Proof.
  intros Hout. induction pre as [|[k w] pre IH]; cbn [app dict_set].
  - now rewrite String.eqb_refl.
  - simpl in Hout. destruct (String.eqb_spec lab k) as [->|Hne]; [tauto|].
    f_equal. apply IH. tauto.
Qed.

Lemma dict_incr_at (pre post : pydict) (lab : string) (v : nat) :
  ~ In lab (dict_keys pre) ->
  dict_incr lab (pre ++ (lab, v) :: post) = Ok (pre ++ (lab, v + 1) :: post).
Proof.
  intros Hout. unfold dict_incr.
  rewrite dict_get_at by exact Hout. cbn [bind].
  now rewrite dict_set_at.
Qed.

Lemma scan_labs_counts (r : row) (labs acc : list string) (pre : pydict)
    (f : string -> nat) :
  NoDup (dict_keys pre ++ labs) ->
  scan_labs r labs acc (pre ++ map (fun lab => (lab, f lab)) labs)
  = Ok (acc ++ completed_in labs r,
        pre ++ map (fun lab => (lab, f lab + (if is_yes r lab then 1 else 0))) labs).
Proof.
  revert acc pre. induction labs as [|lab labs IH]; intros acc pre Hnd.
  - simpl. now rewrite !app_nil_r.
  - assert (Hout : ~ In lab (dict_keys pre)).
    { pose proof Hnd as Hnd'. apply NoDup_app in Hnd' as (_ & Hdis & _).
      intros Hin. apply list_elem_of_In in Hin. apply (Hdis _ Hin). left. }
    assert (Hnd' : forall v, NoDup (dict_keys (pre ++ [(lab, v)]) ++ labs)).
    { intros v. unfold dict_keys in *. rewrite map_app. simpl.
      now rewrite <- app_assoc. }
    cbn [scan_labs completed_in List.filter map].
    destruct (is_yes r lab) eqn:Hyes.
    + rewrite dict_incr_at by exact Hout. cbn [bind].
      replace (pre ++ (lab, f lab + 1) :: map (fun lab => (lab, f lab)) labs)
        with ((pre ++ [(lab, f lab + 1)]) ++ map (fun lab => (lab, f lab)) labs)
        by (now rewrite <- app_assoc).
      rewrite IH by apply Hnd'.
      rewrite <- !app_assoc. reflexivity.
    + replace (pre ++ (lab, f lab) :: map (fun lab => (lab, f lab)) labs)
        with ((pre ++ [(lab, f lab)]) ++ map (fun lab => (lab, f lab)) labs)
        by (now rewrite <- app_assoc).
      rewrite IH by apply Hnd'.
      rewrite <- !app_assoc, Nat.add_0_r. reflexivity.
Qed.

Lemma count_rows_cons (r : row) (rows : list row) (lab : string) :
  count_rows (r :: rows) lab
  = (if is_yes r lab then 1 else 0) + count_rows rows lab.
Proof. unfold count_rows. simpl. now destruct (is_yes r lab). Qed.

Lemma process_rows_counts (labs : list string) (rows : list row)
    (acc : list summary) (f : string -> nat) :
  NoDup labs ->
  process_rows labs rows acc (map (fun lab => (lab, f lab)) labs)
  = Ok (acc ++ map (summarize labs) rows,
        map (fun lab => (lab, f lab + count_rows rows lab)) labs).
Proof.
  intros Hnd. revert acc f. induction rows as [|r rows IH]; intros acc f.
  - simpl. rewrite app_nil_r. do 2 f_equal.
    apply map_ext. intros lab. now rewrite Nat.add_0_r.
  - cbn [process_rows].
    pose proof (scan_labs_counts r labs [] [] f Hnd) as Hscan.
    cbn [app] in Hscan. rewrite Hscan. clear Hscan.
    cbn [bind fst snd app].
    pose proof (IH (acc ++ [summarize labs r])
                  (fun lab => f lab + (if is_yes r lab then 1 else 0))) as Hrest.
    unfold summarize in Hrest at 1. cbn beta in Hrest. rewrite Hrest.
    rewrite <- app_assoc. do 2 f_equal.
    apply map_ext. intros lab. rewrite count_rows_cons. f_equal. lia.
Qed.

(** On a catalog without repetition the second component of the aggregator
    maps every lab to the number of rows that mark it "Yes". *)
Lemma aggregator_counts (labs : list string) (rows : list row) :
  NoDup labs ->
  get_processed_participant_data labs (Reachable rows)
  = Ok (leaderboard labs rows, tally labs rows).
Proof.
  intros Hnd. unfold get_processed_participant_data. cbn [fetch].
  rewrite (dict_zero_nodup labs Hnd).
  rewrite (process_rows_counts labs rows [] (fun _ => 0) Hnd).
  cbn [bind fst snd app]. rewrite add_derived_ok. reflexivity.
Qed.

(** ** The earlier implementation on its own *)

Lemma fill_counts_ok (rows : list row) (labs : list string) (d : pydict) :
  NoDup (dict_keys d ++ labs) ->
  Legacy.fill_counts (Reachable rows) labs d = Ok (d ++ tally labs rows).
Proof.
  revert d. induction labs as [|lab labs IH]; intros d Hnd.
  - simpl. now rewrite app_nil_r.
  - assert (Hout : ~ In lab (dict_keys d)).
    { pose proof Hnd as Hnd'. apply NoDup_app in Hnd' as (_ & Hdis & _).
      intros Hin. apply list_elem_of_In in Hin. apply (Hdis _ Hin). left. }
    cbn [Legacy.fill_counts Legacy.count_yes fetch bind].
    rewrite dict_set_fresh by exact Hout.
    rewrite IH.
    + rewrite <- app_assoc. reflexivity.
    + unfold dict_keys in *. rewrite map_app. simpl.
      now rewrite <- app_assoc.
Qed.

(** The dict of the per-lab counting queries is the dict the aggregator of
    [src/app.py] returns. *)
Lemma legacy_counts_ok (labs : list string) (rows : list row) :
  NoDup labs ->
  Legacy.labs_completion_rate labs (Reachable rows) = Ok (tally labs rows).
Proof.
  intros Hnd. unfold Legacy.labs_completion_rate.
  now rewrite fill_counts_ok.
Qed.

Lemma legacy_ranks (labs : list string) (rows : list row) :
  Forall has_identity rows ->
  exists ps,
    Legacy.get_participant_data labs (Reachable rows) = Ok ps /\
    map Legacy.rank ps = seq 1 (length rows) /\
    StronglySorted (desc Legacy.completed_labs) ps.
Proof.
  intros Hrows. exists (map forget_email (leaderboard labs rows)).
  split; [now apply legacy_listing_ok|]. split.
  - rewrite map_map. cbn [forget_email Legacy.rank].
    change (map (fun p => rank p) (leaderboard labs rows))
      with (map rank (leaderboard labs rows)).
    unfold leaderboard.
    now rewrite ranked_ranks, sort_desc_length, length_map.
  - pose proof (leaderboard_sorted labs rows) as Hs.
    induction (leaderboard labs rows) as [|p ps IH]; [constructor|].
    simpl in *. apply StronglySorted_inv in Hs as [Hs Hp].
    constructor; [now apply IH|].
    rewrite Forall_forall in Hp. apply Forall_forall. intros q Hq.
    apply list_elem_of_In, in_map_iff in Hq as (q' & <- & Hq').
    apply (Hp (base q')). apply list_elem_of_In. now apply in_map.
Qed.

Lemma tally_sum (labs : list string) (rows : list row) :
  NoDup labs ->
  sum (values (tally labs rows))
  = sum (map completed_labs (map (summarize labs) rows)).
Proof.
  intros Hnd.
  destruct (aggregator_ok labs rows) as (counts & E & _ & S).
  rewrite (aggregator_counts labs rows Hnd) in E.
  injection E as <-. exact S.
Qed.

(** X16.  In the earlier implementation, on a catalog without repeated names
    and rows that all have a name and an email, the counts labs_completion_rate
    returns add up to the completed_labs of the participants
    get_participant_data returns. *)
Lemma legacy_lab_counts_sum (labs : list string) (rows : list row) :
  NoDup labs -> Forall has_identity rows ->
  exists ps counts,
    Legacy.get_participant_data labs (Reachable rows) = Ok ps /\
    Legacy.labs_completion_rate labs (Reachable rows) = Ok counts /\
    sum (values counts) = sum (map Legacy.completed_labs ps).
Proof.
  intros Hnd Hrows.
  exists (map forget_email (leaderboard labs rows)), (tally labs rows).
  split; [now apply legacy_listing_ok|].
  split; [now apply legacy_counts_ok|].
  rewrite (tally_sum labs rows Hnd).
  replace (map Legacy.completed_labs (map forget_email (leaderboard labs rows)))
    with (map completed_labs (map base (leaderboard labs rows)))
    by (now rewrite !map_map).
  apply sum_perm, Permutation_map. symmetry. apply leaderboard_perm.
Qed.

Lemma legacy_home_ok (rows : list row) :
  Forall has_identity rows ->
  exists payload,
    Legacy.get_stats Legacy.LAB_NAMES LABS (Reachable rows) = Ok payload /\
    Home.total_participants payload = length rows /\
    Home.badge_completion_rate payload = tally LABS rows /\
    Home.badge_popularity payload = top_six (tally LABS rows) /\
    (rows <> [] ->
     Home.completion_percentage payload
     = py_round (float_of_nat
                   (sum (map (fun p => completed_labs (base p))
                             (leaderboard LABS rows)))
                 / float_of_nat (20 * length rows) * float_of_nat 100)%float).
Proof.
  intros Hrows. unfold Legacy.get_stats, Legacy.LAB_NAMES.
  rewrite (legacy_listing_ok LABS rows Hrows). cbn [bind].
  rewrite (legacy_counts_ok LABS rows LABS_NoDup).
  rewrite length_map, leaderboard_length, map_map.
  cbn [forget_email Legacy.completed_labs].
  destruct rows as [|r rows]; [eexists; repeat split; congruence|].
  eexists. split; [reflexivity|]. repeat split.
Qed.

(** ** The stable descending sort is determined by its contract

    Python documents [list.sort] and [sorted] as stable.  Whatever algorithm
    computes it, a list that is in descending key order and keeps the
    elements of every key in their original order is the list [sort_desc]
    returns. *)

Lemma head_key_max {A : Type} (key : A -> nat) (x y : A) (l1 l2 : list A) :
  StronglySorted (desc key) (x :: l1) ->
  List.filter (fun a => (key a =? key y)%nat) (x :: l1)
  = List.filter (fun a => (key a =? key y)%nat) (y :: l2) ->
  key y <= key x.
Proof.
  intros Hs Hf.
  assert (Hy : In y (x :: l1)).
  { eapply proj1. apply List.filter_In. rewrite Hf. simpl.
    rewrite Nat.eqb_refl. now left. }
  apply StronglySorted_inv in Hs as [_ Hx]. rewrite Forall_forall in Hx.
  destruct Hy as [->|Hy]; [lia|].
  apply Hx. now apply list_elem_of_In.
Qed.

Lemma stable_sort_unique {A : Type} (key : A -> nat) (l1 l2 : list A) :
  StronglySorted (desc key) l1 ->
  StronglySorted (desc key) l2 ->
  (forall c, List.filter (fun a => (key a =? c)%nat) l1
             = List.filter (fun a => (key a =? c)%nat) l2) ->
  l1 = l2.
Proof.
  revert l2. induction l1 as [|x l1 IH]; intros l2 Hs1 Hs2 Hf.
  - destruct l2 as [|y l2]; [reflexivity|].
    specialize (Hf (key y)). simpl in Hf. rewrite Nat.eqb_refl in Hf.
    discriminate.
  - destruct l2 as [|y l2].
    { specialize (Hf (key x)). simpl in Hf. rewrite Nat.eqb_refl in Hf.
      discriminate. }
    assert (Hxy : key x = key y).
    { pose proof (head_key_max key x y l1 l2 Hs1 (Hf (key y))).
      pose proof (head_key_max key y x l2 l1 Hs2 (eq_sym (Hf (key x)))).
      lia. }
    assert (Hhead : x = y).
    { specialize (Hf (key x)). simpl in Hf.
      rewrite <- Hxy, Nat.eqb_refl in Hf. now injection Hf. }
    subst y. f_equal.
    apply StronglySorted_inv in Hs1 as [Hs1 _].
    apply StronglySorted_inv in Hs2 as [Hs2 _].
    apply IH; [assumption..|].
    intros c. specialize (Hf c). simpl in Hf.
    destruct (key x =? c)%nat; [now injection Hf | exact Hf].
Qed.

Lemma sort_desc_unique {A : Type} (key : A -> nat) (l l' : list A) :
  StronglySorted (desc key) l' ->
  (forall c, List.filter (fun a => (key a =? c)%nat) l'
             = List.filter (fun a => (key a =? c)%nat) l) ->
  l' = sort_desc key l.
Proof.
  intros Hs Hf. apply (stable_sort_unique key); [exact Hs | apply sort_desc_sorted|].
  intros c. now rewrite Hf, sort_desc_stable.
Qed.

(** ** Badge popularity of the earlier implementation *)

(** X17.  On rows that all have a name and an email, empty or not, the home
    endpoint of the earlier implementation answers with a badge_popularity of
    at most six entries whose counts never increase and in which entries of
    equal count are in catalog order. *)
Lemma legacy_badge_popularity (rows : list row) :
  Forall has_identity rows ->
  exists payload,
    Legacy.get_stats Legacy.LAB_NAMES LABS (Reachable rows) = Ok payload /\
    length (Home.badge_popularity payload) <= 6 /\
    forall i j lab1 lab2 c1 c2,
      i < j ->
      Home.badge_popularity payload !! i = Some (lab1, c1) ->
      Home.badge_popularity payload !! j = Some (lab2, c2) ->
      c2 <= c1 /\
      (c1 = c2 ->
       exists i' j', i' < j' /\ LABS !! i' = Some lab1 /\ LABS !! j' = Some lab2).
Proof.
  intros Hrows.
  destruct (legacy_home_ok rows Hrows) as (payload & E & _ & _ & Hpop & _).
  exists payload. split; [exact E|]. rewrite Hpop.
  split; [apply top_six_length|].
  intros i j lab1 lab2 c1 c2 Hij H1 H2.
  assert (K : dict_keys (tally LABS rows) = LABS).
  { unfold dict_keys, tally. rewrite map_map. apply map_id. }
  rewrite <- K. now apply (top_six_order (tally LABS rows) i j).
Qed.

(** * Further properties of the two files *)

(** ** The home endpoint of [src/app.py] *)

Lemma aggregator_no_rows (labs : list string) :
  get_processed_participant_data labs (Reachable []) = Ok ([], dict_zero labs).
Proof. reflexivity. Qed.

(** X2.  For every catalog and non-empty list of rows, average_progress of
    the home endpoint of [src/app.py] is round(t / N), N the number of rows
    and t the number of (row, catalog lab) pairs marked "Yes"; t is also the
    sum of the values of badge_completion_rate. *)
Theorem home_average_progress (labs : list string) (rows : list row) :
  rows <> [] ->
  exists payload,
    get_stats labs (Reachable rows) = Ok payload /\
    Home.average_progress payload
    = py_round (float_of_nat (sum (map (fun r => length (completed_in labs r)) rows))
                / float_of_nat (length rows))%float /\
    sum (values (Home.badge_completion_rate payload))
    = sum (map (fun r => length (completed_in labs r)) rows).
Proof.
  intros Hne.
  destruct (get_stats_some_participants labs rows Hne)
    as (counts & first & Eagg & _ & _ & E).
  destruct (aggregator_ok labs rows) as (counts' & Eagg' & _ & S).
  rewrite Eagg in Eagg'. injection Eagg' as <-.
  assert (Hsum : sum (map (fun p => completed_labs (base p)) (leaderboard labs rows))
                 = sum (map (fun r => length (completed_in labs r)) rows)).
  { rewrite <- (map_map base completed_labs).
    rewrite (sum_perm _ _ (Permutation_map completed_labs (leaderboard_perm labs rows))).
    now rewrite map_map. }
  eexists. split; [exact E|].
  cbn [Home.average_progress Home.badge_completion_rate].
  rewrite Hsum, S, map_map. auto.
Qed.

(** The theorem on a participant with every lab and one with none: the mean
    of 19 and 0 is 9.5, rounded to the even neighbour 10. *)
Lemma home_average_progress_witness :
  exists payload,
    get_stats LABS (Reachable [row_all; row_none]) = Ok payload /\
    Home.average_progress payload = 10%Z.
Proof.
  destruct (home_average_progress LABS [row_all; row_none])
    as (payload & E & Havg & _); [discriminate|].
  exists payload. split; [exact E|]. rewrite Havg. vm_compute. reflexivity.
Defined.

(** ** The top performer *)

(** The first element of the sorted list is the first element of the input
    that has the largest key. *)
Lemma sort_desc_head {A : Type} (key : A -> nat) (l : list A) (x : A) (s : list A) :
  sort_desc key l = x :: s ->
  exists pre post,
    l = pre ++ x :: post /\
    Forall (fun y => key y < key x) pre /\
    Forall (fun y => key y <= key x) post.
Proof.
  revert x s. induction l as [|a l IH]; intros x s Hs; [discriminate|].
  cbn [sort_desc fold_right] in Hs. fold (sort_desc key l) in Hs.
  destruct (sort_desc key l) as [|y s'] eqn:El.
  - pose proof (sort_desc_length key l) as Hlen. rewrite El in Hlen.
    destruct l; [|discriminate].
    injection Hs as <- <-. exists [], []. repeat split; constructor.
  - destruct (IH y s' eq_refl) as (pre & post & -> & Hpre & Hpost).
    cbn [insert_desc] in Hs.
    destruct (key y <=? key a)%nat eqn:E.
    + apply Nat.leb_le in E. injection Hs as <- <-.
      exists [], (pre ++ y :: post). split; [reflexivity|].
      split; [constructor|].
      apply Forall_app. split; [|constructor].
      * eapply Forall_impl; [exact Hpre|]. simpl. intros; lia.
      * exact E.
      * eapply Forall_impl; [exact Hpost|]. simpl. intros; lia.
    + apply Nat.leb_gt in E. injection Hs as <- <-.
      exists (a :: pre), post. split; [reflexivity|].
      split; [constructor; assumption | exact Hpost].
Qed.

(** X3.  For every catalog and non-empty list of rows, the badges of
    top_performer in the home endpoint of [src/app.py] are the largest
    completed-count of any row.  When that count is 0 the top performer is
    the "N/A" sentinel; otherwise it carries the name (or "N/A" for a row
    without one) and the initials of the first row, in input order, that
    reaches it. *)
Theorem home_top_performer (labs : list string) (rows : list row) :
  rows <> [] ->
  exists payload,
    get_stats labs (Reachable rows) = Ok payload /\
    (forall r, In r rows ->
       length (completed_in labs r) <= badges (Home.top_performer payload)) /\
    (badges (Home.top_performer payload) = 0 ->
     Home.top_performer payload = no_performer) /\
    (0 < badges (Home.top_performer payload) ->
     exists i r,
       rows !! i = Some r /\
       length (completed_in labs r) = badges (Home.top_performer payload) /\
       performer_name (Home.top_performer payload) = get_or_na r "name" /\
       get_initials (get_or_na r "name")
       = Ok (performer_initials (Home.top_performer payload)) /\
       forall j r', j < i -> rows !! j = Some r' ->
         length (completed_in labs r') < badges (Home.top_performer payload)).
Proof.
  intros Hne.
  destruct (get_stats_some_participants labs rows Hne)
    as (counts & first & _ & _ & Hfirst & E).
  assert (Hhead : exists s,
             sort_desc completed_labs (map (summarize labs) rows) = base first :: s).
  { pose proof (leaderboard_base labs rows) as Hb.
    destruct (leaderboard labs rows) as [|p ps]; [discriminate|].
    injection Hfirst as ->. simpl in Hb. eauto. }
  destruct Hhead as [s Hs].
  destruct (sort_desc_head _ _ _ _ Hs) as (pre & post & Hsplit & Hpre & Hpost).
  apply map_eq_app in Hsplit as (rpre & rrest & -> & <- & Hrest).
  apply map_eq_cons in Hrest as (r0 & rpost & -> & Hr0 & <-).
  assert (Hinit : initials first = initials_of (name (base first))).
  { apply (ranked_percentage labs 1
             (sort_desc completed_labs (map (summarize labs) (rpre ++ r0 :: rpost)))).
    apply list_elem_of_In. eapply list_elem_of_lookup_2. exact Hfirst. }
  assert (Hmax : forall r, In r (rpre ++ r0 :: rpost) ->
                           length (completed_in labs r) <= completed_labs (base first)).
  { intros r Hr. rewrite <- Hr0. apply in_app_or in Hr as [Hr|[<-|Hr]].
    - rewrite Forall_forall in Hpre.
      specialize (Hpre (summarize labs r)). simpl in Hpre.
      rewrite Hr0 in *. apply Nat.lt_le_incl, Hpre.
      apply list_elem_of_In. now apply in_map.
    - reflexivity.
    - rewrite Forall_forall in Hpost.
      specialize (Hpost (summarize labs r)). simpl in Hpost.
      rewrite Hr0 in *. apply Hpost.
      apply list_elem_of_In. now apply in_map. }
  eexists. split; [exact E|]. cbn [Home.top_performer]. unfold performer_of.
  destruct (0 <? completed_labs (base first))%nat eqn:Hpos.
  - apply Nat.ltb_lt in Hpos. cbn [badges performer_name performer_initials].
    split; [exact Hmax|]. split; [lia|]. intros _.
    exists (length rpre), r0.
    split; [now rewrite list_lookup_middle|].
    split; [now rewrite <- Hr0|]. split; [now rewrite <- Hr0|].
    split; [rewrite Hinit, <- Hr0; apply get_initials_ok|].
    intros j r' Hj Hr'. rewrite lookup_app_l in Hr' by exact Hj.
    rewrite Forall_forall in Hpre.
    apply (Hpre (summarize labs r')).
    apply list_elem_of_In, in_map, list_elem_of_In.
    eapply list_elem_of_lookup_2. exact Hr'.
  - apply Nat.ltb_ge in Hpos. cbn [badges no_performer].
    split; [|split; [reflexivity | lia]].
    intros r Hr. specialize (Hmax r Hr). lia.
Qed.

(** The theorem on two rows with all labs: the first one is the top
    performer. *)
Lemma home_top_performer_witness :
  exists payload,
    get_stats LABS
      (Reachable [row_none; row_of "Ada Lovelace" "ada@example.org" LABS; row_all])
    = Ok payload /\
    Home.top_performer payload
    = {| performer_name := "Ada Lovelace"; performer_initials := "AL"; badges := 19 |}.
Proof.
  destruct (home_top_performer LABS
              [row_none; row_of "Ada Lovelace" "ada@example.org" LABS; row_all])
    as (payload & E & _); [discriminate|].
  exists payload. split; [exact E|].
  vm_compute in E. injection E as <-. reflexivity.
Defined.

(** ** The counts per lab and the participants of the aggregator *)

Lemma count_rows_bound (rows : list row) (lab : string) :
  count_rows rows lab <= length rows.
Proof. apply List.filter_length_le. Qed.

Lemma tally_get (labs : list string) (rows : list row) (lab : string) :
  In lab labs -> dict_get lab (tally labs rows) = Ok (count_rows rows lab).
Proof.
  induction labs as [|l labs IH]; simpl; [tauto|].
  destruct (String.eqb_spec lab l) as [->|Hne]; [reflexivity|].
  intros [H|H]; [congruence | auto].
Qed.

(** X4.  On a catalog without repeated names the labCounts dict of the
    aggregator of [src/app.py] lists the catalog labs in catalog order, each
    with the number of rows whose field for that lab is "Yes"; a count never
    exceeds the number of rows. *)
Theorem lab_counts_count_rows (labs : list string) (rows : list row) :
  NoDup labs ->
  exists ps counts,
    get_processed_participant_data labs (Reachable rows) = Ok (ps, counts) /\
    items counts
    = map (fun lab =>
             (lab, length (List.filter
                             (fun r => bool_decide (r !! lab = Some "Yes")) rows)))
          labs /\
    (forall lab, In lab labs ->
       exists n, dict_get lab counts = Ok n /\ n <= length rows).
Proof.
  intros Hnd. exists (leaderboard labs rows), (tally labs rows).
  split; [now apply aggregator_counts|]. split; [reflexivity|].
  intros lab Hlab. exists (count_rows rows lab).
  split; [now apply tally_get | apply count_rows_bound].
Qed.

(** The theorem on the catalog of the program and three rows. *)
Lemma lab_counts_count_rows_witness :
  exists ps counts,
    get_processed_participant_data LABS
      (Reachable [row_all; row_none; row_of "C" "c@example.org" ["Get Started with Looker"]])
    = Ok (ps, counts) /\
    dict_get "Get Started with Looker" counts = Ok 2 /\
    dict_get "Get Started with Dataplex" counts = Ok 1.
Proof.
  destruct (lab_counts_count_rows LABS
              [row_all; row_none; row_of "C" "c@example.org" ["Get Started with Looker"]])
    as (ps & counts & E & _).
  { apply (bool_decide_eq_true_1 (NoDup LABS)). vm_compute. reflexivity. }
  exists ps, counts. split; [exact E|].
  vm_compute in E. injection E as _ <-. split; reflexivity.
Defined.

(** X5.  Every participant the aggregator of [src/app.py] returns keeps these
    relations, for every catalog and rows: its completed labs are catalog
    labs in catalog order, completed_labs is their number and at most the
    size of the catalog, badge_count equals completed_labs, initials is
    get_initials of its name, and its rank lies in 1..N.  On the catalog of
    the program completion_percentage lies in 0..100. *)
Theorem participant_invariants :
  (forall labs rows, exists ps counts,
      get_processed_participant_data labs (Reachable rows) = Ok (ps, counts) /\
      forall p, In p ps ->
        name_of_completed_labs (base p) `sublist_of` labs /\
        completed_labs (base p) = length (name_of_completed_labs (base p)) /\
        completed_labs (base p) <= length labs /\
        badge_count p = completed_labs (base p) /\
        get_initials (name (base p)) = Ok (initials p) /\
        1 <= rank p <= length rows) /\
  (forall rows, exists ps counts,
      get_processed_participant_data LABS (Reachable rows) = Ok (ps, counts) /\
      forall p, In p ps -> (0 <= completion_percentage p <= 100)%Z).
Proof.
  split.
  - intros labs rows.
    destruct (aggregator_ok labs rows) as (counts & E & _ & _).
    exists (leaderboard labs rows), counts. split; [exact E|].
    intros p Hp.
    assert (Hbase : exists r, base p = summarize labs r).
    { pose proof (in_map base _ _ Hp) as Hb.
      apply (Permutation_in _ (leaderboard_perm labs rows)) in Hb.
      apply in_map_iff in Hb as (r & Hr & _). eauto. }
    destruct Hbase as [r Hr].
    pose proof (ranked_percentage _ _ _ _ Hp) as (Hi & Hb & _).
    rewrite Hr. cbn [summarize name_of_completed_labs completed_labs].
    split; [apply filter_sublist|]. split; [reflexivity|].
    split; [apply completed_in_bound|].
    split; [now rewrite Hb, Hr|].
    split; [rewrite Hi, Hr; apply get_initials_ok|].
    apply list_elem_of_In, list_elem_of_lookup_1 in Hp as [i Hi'].
    pose proof (leaderboard_lookup_rank _ _ _ _ Hi') as Hrank.
    apply lookup_lt_Some in Hi'. rewrite leaderboard_length in Hi'. lia.
  - intros rows.
    destruct (aggregator_ok LABS rows) as (counts & E & _ & _).
    exists (leaderboard LABS rows), counts. split; [exact E|].
    intros p Hp.
    pose proof (leaderboard_completed_bound _ _ _ Hp) as Hb.
    apply ranked_percentage in Hp as (_ & _ & ->).
    change (length LABS) with 19 in Hb.
    pose proof (pct_LABS_nearest _ Hb). lia.
Qed.

(** ** The six entries of badge_popularity are the most completed labs *)

Lemma strongly_sorted_app_order {A : Type} (R : A -> A -> Prop)
    (l1 l2 : list A) (x y : A) :
  StronglySorted R (l1 ++ l2) -> In x l1 -> In y l2 -> R x y.
Proof.
  induction l1 as [|a l1 IH]; intros Hs Hx Hy; [destruct Hx|].
  simpl in Hs. apply StronglySorted_inv in Hs as [Hs Ha].
  destruct Hx as [->|Hx]; [|now apply IH].
  rewrite Forall_forall in Ha. apply Ha.
  apply list_elem_of_In, in_or_app. now right.
Qed.

Lemma top_six_dominates (d : pydict) (e e' : string * nat) :
  In e (items d) -> ~ In e (top_six d) -> In e' (top_six d) -> snd e <= snd e'.
Proof.
  intros He Hout Hin. unfold top_six in *.
  pose proof (sort_desc_sorted snd (items d)) as Hs.
  rewrite <- (take_drop 6 (sort_desc snd (items d))) in Hs.
  apply (strongly_sorted_app_order (desc snd) _ _ e' e Hs).
  - exact Hin.
  - apply (Permutation_in _ (Permutation_sym (sort_desc_perm snd (items d)))) in He.
    rewrite <- (take_drop 6 (sort_desc snd (items d))) in He.
    apply in_app_or in He as [He|He]; [tauto | exact He].
Qed.

Lemma top_six_exact_length (d : pydict) :
  length (top_six d) = Nat.min 6 (length d).
Proof. unfold top_six, items. now rewrite length_take, sort_desc_length. Qed.

(** X6.  For every non-empty list of rows, badge_popularity of the home
    endpoint of [src/app.py] has exactly six entries on the nineteen-lab
    catalog, and they are the most completed labs: an entry of
    badge_completion_rate that is left out has no larger count than any entry
    that is listed. *)
Theorem badge_popularity_is_top (rows : list row) :
  rows <> [] ->
  exists payload,
    get_stats LABS (Reachable rows) = Ok payload /\
    length (Home.badge_popularity payload) = 6 /\
    forall e e',
      In e (items (Home.badge_completion_rate payload)) ->
      ~ In e (Home.badge_popularity payload) ->
      In e' (Home.badge_popularity payload) ->
      snd e <= snd e'.
Proof.
  intros Hne.
  destruct (get_stats_some_participants LABS rows Hne)
    as (counts & first & _ & K & _ & E).
  eexists. split; [exact E|].
  cbn [Home.badge_popularity Home.badge_completion_rate].
  split; [|apply top_six_dominates].
  rewrite top_six_exact_length.
  replace (length counts) with (length (dict_keys counts))
    by (unfold dict_keys; apply length_map).
  now rewrite (dict_keys_LABS counts K).
Qed.

(** The theorem on three rows: the one lab two participants completed comes
    first, then the first five labs of the catalog. *)
Lemma badge_popularity_is_top_witness :
  exists payload,
    get_stats LABS
      (Reachable [row_all; row_none; row_of "C" "c@example.org" ["Cloud Speech API: 3 Ways"]])
    = Ok payload /\
    Home.badge_popularity payload
    = [("Cloud Speech API: 3 Ways", 2);
       ("The Basics of Google Cloud Compute", 1);
       ("Get Started with Cloud Storage", 1);
       ("Get Started with Pub_Sub", 1);
       ("Get Started with API Gateway", 1);
       ("Get Started with Looker", 1)].
Proof.
  destruct (badge_popularity_is_top
              [row_all; row_none; row_of "C" "c@example.org" ["Cloud Speech API: 3 Ways"]])
    as (payload & E & _); [discriminate|].
  exists payload. split; [exact E|].
  vm_compute in E. injection E as <-. reflexivity.
Defined.

(** ** Whitespace around a name *)

Lemma starts_token_app_blank (s w : string) :
  is_blank w -> starts_token (s ++ w)%string = starts_token s.
Proof.
  intros Hw. destruct s as [|c s]; [|reflexivity].
  now apply starts_token_all_blank.
Qed.

Lemma split_blank_suffix (s w : string) :
  is_blank w -> split (s ++ w)%string = split s.
Proof.
  intros Hw. induction s as [|c s IH]; [now apply split_only_blank|].
  change (String c s ++ w)%string with (String c (s ++ w)%string).
  cbn [split]. now rewrite IH, starts_token_app_blank.
Qed.

(** X8.  get_initials ignores whitespace around a name: for every name and
    every two runs of whitespace, the initials of the padded name are those
    of the name. *)
Theorem get_initials_ignores_padding (w1 w2 name : string) :
  is_blank w1 -> is_blank w2 ->
  get_initials (w1 ++ name ++ w2)%string = get_initials name.
Proof.
  intros H1 H2. unfold get_initials.
  now rewrite split_blank, split_blank_suffix.
Qed.

(** The theorem on a name between a tab and two spaces. *)
Lemma get_initials_ignores_padding_witness :
  get_initials (String "009"%char "" ++ "ada lovelace" ++ "  ")%string
  = get_initials "ada lovelace".
Proof.
  apply get_initials_ignores_padding.
  - intros c Hc. simpl in Hc. intuition (subst; reflexivity).
  - intros c Hc. simpl in Hc. intuition (subst; reflexivity).
Defined.

(** ** The counting queries of the earlier implementation *)

(** X10.  On a catalog without repeated names and rows read from the store,
    labs_completion_rate of the earlier implementation, which asks the store
    for one count per lab, returns the very dict the single pass of
    [src/app.py] accumulates.  When the store cannot be read it raises at the
    first lab; with an empty catalog it asks nothing and returns the empty
    dict. *)
Theorem legacy_counts_agree (labs : list string) :
  NoDup labs ->
  (forall rows, exists ps counts,
      get_processed_participant_data labs (Reachable rows) = Ok (ps, counts) /\
      Legacy.labs_completion_rate labs (Reachable rows) = Ok counts) /\
  (labs <> [] -> Legacy.labs_completion_rate labs Unreachable = Raise StoreError) /\
  (labs = [] -> forall db, Legacy.labs_completion_rate labs db = Ok []).
Proof.
  intros Hnd. split; [|split].
  - intros rows. exists (leaderboard labs rows), (tally labs rows).
    split; [now apply aggregator_counts | now apply legacy_counts_ok].
  - destruct labs; [congruence | reflexivity].
  - intros -> db. reflexivity.
Qed.

(** The theorem on the catalog of the program. *)
Lemma legacy_counts_agree_witness :
  Legacy.labs_completion_rate LABS Unreachable = Raise StoreError.
Proof.
  refine (proj1 (proj2 (legacy_counts_agree LABS _)) _).
  - apply (bool_decide_eq_true_1 (NoDup LABS)). vm_compute. reflexivity.
  - discriminate.
Defined.

(** ** The two home endpoints *)

Lemma find_top_later_ranks (labs : list string) (k : nat) (users : list summary) :
  1 < k -> Legacy.find_top (map forget_email (ranked labs k users)) = no_performer.
Proof.
  revert k. induction users as [|u users IH]; intros k Hk; [reflexivity|].
  cbn [ranked map Legacy.find_top forget_email finalize Legacy.rank rank].
  destruct (k =? 1)%nat eqn:E; [apply Nat.eqb_eq in E; lia|].
  cbn [andb]. apply IH. lia.
Qed.

Lemma find_top_leaderboard (labs : list string) (rows : list row) (first : participant) :
  leaderboard labs rows !! 0 = Some first ->
  Legacy.find_top (map forget_email (leaderboard labs rows)) = performer_of first.
Proof.
  unfold leaderboard.
  destruct (sort_desc completed_labs (map (summarize labs) rows)) as [|u us];
    [discriminate|].
  cbn [ranked lookup list_lookup]. intros [= <-].
  cbn [map Legacy.find_top]. unfold performer_of.
  cbn [forget_email finalize Legacy.rank Legacy.completed_labs Legacy.name
       Legacy.initials rank base initials Nat.eqb andb].
  destruct (0 <? completed_labs u)%nat; [reflexivity|].
  apply find_top_later_ranks. lia.
Qed.

(** X11.  On the catalog of the program and a non-empty list of rows that all
    have a name and an email, the home endpoints of the two files answer with
    the same total_participants, average_progress, top_performer,
    badge_completion_rate and badge_popularity. *)
Theorem home_endpoints_agree (rows : list row) :
  rows <> [] -> Forall has_identity rows ->
  exists new old,
    get_stats LABS (Reachable rows) = Ok new /\
    Legacy.get_stats Legacy.LAB_NAMES LABS (Reachable rows) = Ok old /\
    Home.total_participants old = Home.total_participants new /\
    Home.average_progress old = Home.average_progress new /\
    Home.top_performer old = Home.top_performer new /\
    Home.badge_completion_rate old = Home.badge_completion_rate new /\
    Home.badge_popularity old = Home.badge_popularity new.
Proof.
  intros Hne Hrows.
  destruct (get_stats_some_participants LABS rows Hne)
    as (counts & first & Eagg & _ & Hfirst & E).
  rewrite (aggregator_counts LABS rows LABS_NoDup) in Eagg.
  injection Eagg as <-.
  eexists. eexists. split; [exact E|]. split.
  - unfold Legacy.get_stats, Legacy.LAB_NAMES.
    rewrite (legacy_listing_ok LABS rows Hrows). cbn [bind].
    rewrite (legacy_counts_ok LABS rows LABS_NoDup).
    rewrite length_map, leaderboard_length, map_map.
    cbn [forget_email Legacy.completed_labs].
    rewrite (find_top_leaderboard LABS rows first Hfirst).
    destruct rows as [|r rows]; [congruence|]. reflexivity.
  - repeat split.
Qed.

(** The theorem on the two rows of the specification's example. *)
Lemma home_endpoints_agree_witness :
  exists new old,
    get_stats LABS (Reachable [row_all; row_none]) = Ok new /\
    Legacy.get_stats Legacy.LAB_NAMES LABS (Reachable [row_all; row_none]) = Ok old /\
    Home.top_performer old = Home.top_performer new /\
    Home.badge_popularity old = Home.badge_popularity new.
Proof.
  destruct (home_endpoints_agree [row_all; row_none])
    as (new & old & E1 & E2 & _ & _ & H3 & _ & H5).
  - discriminate.
  - repeat constructor; eexists; vm_compute; reflexivity.
  - exists new, old. auto.
Defined.

Lemma sort_desc_constant {A : Type} (key : A -> nat) (c : nat) (l : list A) :
  Forall (fun x => key x = c) l -> sort_desc key l = l.
Proof.
  induction 1 as [|a l Ha Hl IH]; [reflexivity|].
  cbn [sort_desc fold_right]. fold (sort_desc key l). rewrite IH.
  destruct Hl as [|y l Hy _]; [reflexivity|].
  cbn [insert_desc]. rewrite Ha, Hy, Nat.leb_refl. reflexivity.
Qed.

(** X12.  With no row in the store the two home endpoints differ in
    badge_popularity: [src/app.py] returns the empty list, while the earlier
    implementation sorts the all-zero counts and returns the first six labs
    of the catalog (all of them for a shorter catalog), each with count 0.
    Their other five fields coincide. *)
Theorem home_endpoints_without_rows (lab_names labs : list string) :
  NoDup labs ->
  get_stats labs (Reachable [])
  = Ok {| Home.total_participants := 0;
          Home.completion_percentage := 0;
          Home.average_progress := 0;
          Home.top_performer := no_performer;
          Home.badge_completion_rate := map (fun lab => (lab, 0)) labs;
          Home.badge_popularity := [] |} /\
  Legacy.get_stats lab_names labs (Reachable [])
  = Ok {| Home.total_participants := 0;
          Home.completion_percentage := 0;
          Home.average_progress := 0;
          Home.top_performer := no_performer;
          Home.badge_completion_rate := map (fun lab => (lab, 0)) labs;
          Home.badge_popularity := take 6 (map (fun lab => (lab, 0)) labs) |}.
Proof.
  intros Hnd. split.
  - rewrite (get_stats_no_participants labs _ _ (aggregator_no_rows labs)).
    unfold empty_home. now rewrite (dict_zero_nodup labs Hnd).
  - unfold Legacy.get_stats. cbn [Legacy.get_participant_data fetch bind
      Legacy.build_ranking sort_desc fold_right Legacy.assign_ranks length
      Nat.ltb Nat.leb map sum Legacy.find_top Legacy.round].
    rewrite (legacy_counts_ok labs [] Hnd). cbn [bind].
    unfold top_six, items, tally. cbn [count_rows List.filter length].
    rewrite (sort_desc_constant snd 0); [reflexivity|].
    apply Forall_forall. intros e He.
    apply list_elem_of_In, in_map_iff in He as (lab & <- & _). reflexivity.
Qed.

(** The theorem on the catalog of the program. *)
Lemma home_endpoints_without_rows_witness :
  exists payload,
    Legacy.get_stats Legacy.LAB_NAMES LABS (Reachable []) = Ok payload /\
    Home.badge_popularity payload
    = [("The Basics of Google Cloud Compute", 0);
       ("Get Started with Cloud Storage", 0);
       ("Get Started with Pub_Sub", 0);
       ("Get Started with API Gateway", 0);
       ("Get Started with Looker", 0);
       ("Get Started with Dataplex", 0)].
Proof.
  destruct (home_endpoints_without_rows Legacy.LAB_NAMES LABS) as [_ E].
  { apply (bool_decide_eq_true_1 (NoDup LABS)). vm_compute. reflexivity. }
  eexists. split; [exact E | reflexivity].
Defined.

(** ** Ranks, totals and popularity in the earlier implementation *)

(** X15.  On rows that all have a name and an email, the aggregator of the
    earlier implementation returns one participant per row, ranked 1, 2, ...,
    N in output order, and a later participant never has more completed labs
    than an earlier one. *)
Theorem legacy_ranks_dense_and_ordered (labs : list string) (rows : list row) :
  Forall has_identity rows ->
  exists ps,
    Legacy.get_participant_data labs (Reachable rows) = Ok ps /\
    map Legacy.rank ps = seq 1 (length rows) /\
    forall i j p q,
      i < j -> ps !! i = Some p -> ps !! j = Some q ->
      Legacy.rank p < Legacy.rank q /\
      Legacy.completed_labs q <= Legacy.completed_labs p.
Proof.
  intros Hrows.
  destruct (legacy_ranks labs rows Hrows) as (ps & E & Hranks & Hsorted).
  exists ps. split; [exact E|]. split; [exact Hranks|].
  intros i j p q Hij Hp Hq. split.
  - assert (Hi : map Legacy.rank ps !! i = Some (Legacy.rank p))
      by (rewrite list_lookup_fmap, Hp; reflexivity).
    assert (Hj : map Legacy.rank ps !! j = Some (Legacy.rank q))
      by (rewrite list_lookup_fmap, Hq; reflexivity).
    rewrite Hranks in Hi, Hj.
    apply lookup_seq in Hi, Hj. lia.
  - exact (strongly_sorted_lookup _ ps i j p q Hsorted Hij Hp Hq).
Qed.

(** The theorem on three rows, two of them tied. *)
Lemma legacy_ranks_dense_and_ordered_witness :
  exists ps,
    Legacy.get_participant_data LABS
      (Reachable [row_none; row_all; row_of "C" "c@example.org" []]) = Ok ps /\
    map (fun p => (Legacy.rank p, Legacy.name p)) ps = [(1, "A"); (2, "B"); (3, "C")].
Proof.
  destruct (legacy_ranks_dense_and_ordered LABS
              [row_none; row_all; row_of "C" "c@example.org" []])
    as (ps & E & _).
  { repeat constructor; eexists; vm_compute; reflexivity. }
  exists ps. split; [exact E|].
  vm_compute in E. injection E as <-. reflexivity.
Defined.

(** The sum of the counts on the example of the specification. *)
Lemma legacy_lab_counts_sum_witness :
  exists ps counts,
    Legacy.get_participant_data LABS (Reachable [row_all; row_none]) = Ok ps /\
    Legacy.labs_completion_rate LABS (Reachable [row_all; row_none]) = Ok counts /\
    sum (values counts) = 19.
Proof.
  destruct (legacy_lab_counts_sum LABS [row_all; row_none])
    as (ps & counts & E1 & E2 & S).
  - apply (bool_decide_eq_true_1 (NoDup LABS)). vm_compute. reflexivity.
  - repeat constructor; eexists; vm_compute; reflexivity.
  - exists ps, counts. split; [exact E1|]. split; [exact E2|].
    rewrite S. vm_compute in E1. injection E1 as <-. reflexivity.
Defined.

(** The popularity list of the earlier implementation on three rows. *)
Lemma legacy_badge_popularity_witness :
  exists payload,
    Legacy.get_stats Legacy.LAB_NAMES LABS
      (Reachable [row_all; row_none; row_of "C" "c@example.org" ["Cloud Speech API: 3 Ways"]])
    = Ok payload /\
    map fst (Home.badge_popularity payload)
    = ["Cloud Speech API: 3 Ways"; "The Basics of Google Cloud Compute";
       "Get Started with Cloud Storage"; "Get Started with Pub_Sub";
       "Get Started with API Gateway"; "Get Started with Looker"].
Proof.
  destruct (legacy_badge_popularity
              [row_all; row_none; row_of "C" "c@example.org" ["Cloud Speech API: 3 Ways"]])
    as (payload & E & _).
  { repeat constructor; eexists; vm_compute; reflexivity. }
  exists payload. split; [exact E|].
  vm_compute in E. injection E as <-. reflexivity.
Defined.

(** X18.  On the catalog of the program and a non-empty list of rows that all
    have a name and an email, completion_percentage of the earlier home
    endpoint is round(t / (20 * N) * 100), N the number of rows and t the
    number of (row, catalog lab) pairs marked "Yes": the share of completed
    labs out of twenty per participant. *)
Theorem legacy_completion_percentage (rows : list row) :
  rows <> [] -> Forall has_identity rows ->
  exists payload,
    Legacy.get_stats Legacy.LAB_NAMES LABS (Reachable rows) = Ok payload /\
    Home.completion_percentage payload
    = py_round (float_of_nat (sum (map (fun r => length (completed_in LABS r)) rows))
                / float_of_nat (20 * length rows) * float_of_nat 100)%float.
Proof.
  intros Hne Hrows.
  destruct (legacy_home_ok rows Hrows) as (payload & E & _ & _ & _ & Hcp).
  exists payload. split; [exact E|]. rewrite (Hcp Hne).
  replace (sum (map (fun p => completed_labs (base p)) (leaderboard LABS rows)))
    with (sum (map (fun r => length (completed_in LABS r)) rows)); [reflexivity|].
  rewrite <- (map_map base completed_labs).
  rewrite (sum_perm _ _ (Permutation_map completed_labs (leaderboard_perm LABS rows))).
  now rewrite map_map.
Qed.

(** The theorem on the example of the specification: 19 labs out of 40. *)
Lemma legacy_completion_percentage_witness :
  exists payload,
    Legacy.get_stats Legacy.LAB_NAMES LABS (Reachable [row_all; row_none]) = Ok payload /\
    Home.completion_percentage payload = 48%Z.
Proof.
  destruct (legacy_completion_percentage [row_all; row_none])
    as (payload & E & Hcp).
  - discriminate.
  - repeat constructor; eexists; vm_compute; reflexivity.
  - exists payload. split; [exact E|]. rewrite Hcp. vm_compute. reflexivity.
Defined.

Lemma filter_map_comm {A B : Type} (f : B -> bool) (g : A -> B) (l : list A) :
  List.filter f (map g l) = map g (List.filter (fun a => f (g a)) l).
Proof.
  induction l as [|a l IH]; [reflexivity|].
  simpl. destruct (f (g a)); simpl; now rewrite IH.
Qed.

(** X19.  The sort of the earlier aggregator keeps ties in input order: on
    rows that all have a name and an email, for every count c the names of
    the returned participants with c completed labs, in output order, are
    the names of the rows with c labs marked "Yes", in input order. *)
Theorem legacy_sort_keeps_ties (labs : list string) (rows : list row) :
  Forall has_identity rows ->
  exists ps,
    Legacy.get_participant_data labs (Reachable rows) = Ok ps /\
    forall c,
      map Legacy.name
          (List.filter (fun p => (Legacy.completed_labs p =? c)%nat) ps)
      = map (fun r => get_or_na r "name")
            (List.filter (fun r => (length (completed_in labs r) =? c)%nat) rows).
Proof.
  intros Hrows. exists (map forget_email (leaderboard labs rows)).
  split; [now apply legacy_listing_ok|]. intros c.
  rewrite (filter_map_comm _ forget_email). cbn [forget_email Legacy.completed_labs].
  rewrite map_map. cbn [forget_email Legacy.name].
  rewrite <- (map_map base name).
  rewrite <- (filter_map_comm (fun u => (completed_labs u =? c)%nat) base).
  rewrite leaderboard_base, sort_desc_stable.
  rewrite (filter_map_comm _ (summarize labs)), map_map. reflexivity.
Qed.

(** The theorem on three rows without completed labs. *)
Lemma legacy_sort_keeps_ties_witness :
  exists ps,
    Legacy.get_participant_data LABS
      (Reachable [row_of "C" "c@example.org" []; row_none; row_of "A" "a@example.org" []])
    = Ok ps /\
    map Legacy.name ps = ["C"; "B"; "A"].
Proof.
  destruct (legacy_sort_keeps_ties LABS
              [row_of "C" "c@example.org" []; row_none; row_of "A" "a@example.org" []])
    as (ps & E & _).
  { repeat constructor; eexists; vm_compute; reflexivity. }
  exists ps. split; [exact E|].
  vm_compute in E. injection E as <-. reflexivity.
Defined.

(** * Dynamically typed rows and Unicode names *)

(** ** [split] and [get_initials] on Unicode text *)

Lemma dyn_split_tokens_nonempty (u : Dyn.unicode) (s : Dyn.text) :
  Forall (fun t => t <> []) (Dyn.split u s).
Proof.
  induction s as [|c s IH]; simpl; [constructor|].
  destruct (Dyn.isspace u c); [exact IH|].
  destruct (Dyn.starts_token u s).
  - destruct (Dyn.split u s) as [|t ts]; repeat constructor; try discriminate.
    now inversion IH.
  - constructor; [discriminate | exact IH].
Qed.

Lemma dyn_split_space (u : Dyn.unicode) (c : N) (s : Dyn.text) :
  Dyn.isspace u c = true -> Dyn.split u (c :: s) = Dyn.split u s.
Proof. intros H. simpl. now rewrite H. Qed.

Lemma dyn_split_token (u : Dyn.unicode) (t s : Dyn.text) :
  Dyn.is_token u t -> Dyn.starts_token u s = false ->
  Dyn.split u (t ++ s) = t :: Dyn.split u s.
Proof.
  intros [Hne Hws] Hs.
  induction t as [|c t IH]; [congruence|].
  change ((c :: t) ++ s) with (c :: (t ++ s)).
  cbn [Dyn.split]. rewrite (Hws c) by (simpl; auto).
  destruct t as [|c' t].
  - change ([] ++ s) with s. now rewrite Hs.
  - assert (Hc' : Dyn.isspace u c' = false) by (apply Hws; simpl; auto).
    replace (Dyn.starts_token u ((c' :: t) ++ s)) with true
      by (simpl; now rewrite Hc').
    rewrite IH; [reflexivity | discriminate |].
    intros a Ha. apply Hws. simpl. simpl in Ha. tauto.
Qed.

Lemma dyn_split_blank (u : Dyn.unicode) (w s : Dyn.text) :
  Dyn.is_blank u w -> Dyn.split u (w ++ s) = Dyn.split u s.
Proof.
  induction w as [|c w IH]; intros Hw; [reflexivity|].
  change ((c :: w) ++ s) with (c :: (w ++ s)).
  rewrite dyn_split_space by (apply Hw; simpl; auto).
  apply IH. intros a Ha. apply Hw. simpl. auto.
Qed.

Lemma dyn_split_only_blank (u : Dyn.unicode) (w : Dyn.text) :
  Dyn.is_blank u w -> Dyn.split u w = [].
Proof.
  induction w as [|c w IH]; intros Hw; [reflexivity|].
  rewrite dyn_split_space by (apply Hw; simpl; auto).
  apply IH. intros a Ha. apply Hw. simpl. auto.
Qed.

Lemma dyn_starts_token_blank (u : Dyn.unicode) (w s : Dyn.text) :
  Dyn.is_blank u w -> w <> [] -> Dyn.starts_token u (w ++ s) = false.
Proof.
  destruct w as [|c w]; intros Hw Hne; [congruence|].
  simpl. rewrite (Hw c) by (simpl; auto). reflexivity.
Qed.

Lemma dyn_starts_token_all_blank (u : Dyn.unicode) (w : Dyn.text) :
  Dyn.is_blank u w -> Dyn.starts_token u w = false.
Proof.
  destruct w as [|c w]; intros Hw; [reflexivity|].
  simpl. rewrite (Hw c) by (simpl; auto). reflexivity.
Qed.

Lemma dyn_get_initials_spec (u : Dyn.unicode) (name : Dyn.text) :
  match Dyn.split u name with
  | (c0 :: _) :: (c1 :: _) :: _ =>
      Dyn.get_initials u (Dyn.Str name) = Ok (Dyn.upper u c0 ++ Dyn.upper u c1)
  | [c0 :: _] => Dyn.get_initials u (Dyn.Str name) = Ok (Dyn.upper u c0)
  | [] => Dyn.get_initials u (Dyn.Str name) = Ok []
  | _ => False
  end.
Proof.
  unfold Dyn.get_initials.
  pose proof (dyn_split_tokens_nonempty u name) as Hne.
  destruct (Dyn.split u name) as [|t0 [|t1 ts]]; simpl.
  - reflexivity.
  - inversion Hne as [|? ? H0 _]; subst. destruct t0; [congruence | reflexivity].
  - inversion Hne as [|? ? H0 H1]; subst. inversion H1 as [|? ? H2 _]; subst.
    destruct t0; [congruence|]. destruct t1; [congruence | reflexivity].
Qed.

Lemma dyn_get_initials_str (u : Dyn.unicode) (name : Dyn.text) :
  exists s, Dyn.get_initials u (Dyn.Str name) = Ok s.
Proof.
  pose proof (dyn_get_initials_spec u name) as H.
  destruct (Dyn.split u name) as [|[|c0 t0] [|[|c1 t1] ts]];
    try contradiction; eauto.
Qed.

(** The initials of a name depend on the tables only through the characters
    of the name. *)
Lemma dyn_split_ext (u u' : Dyn.unicode) (s : Dyn.text) :
  (forall c, In c s -> Dyn.isspace u c = Dyn.isspace u' c) ->
  Dyn.split u s = Dyn.split u' s.
Proof.
  induction s as [|c s IH]; intros H; [reflexivity|].
  cbn [Dyn.split]. rewrite (H c) by (simpl; auto).
  rewrite IH by (intros a Ha; apply H; simpl; auto).
  replace (Dyn.starts_token u s) with (Dyn.starts_token u' s); [reflexivity|].
  destruct s as [|c' s]; [reflexivity|].
  simpl. now rewrite (H c') by (simpl; auto).
Qed.

Lemma dyn_split_chars (u : Dyn.unicode) (s : Dyn.text) (t : Dyn.text) (c : N) :
  In t (Dyn.split u s) -> In c t -> In c s.
Proof.
  revert t. induction s as [|a s IH]; intros t Ht Hc; [destruct Ht|].
  cbn [Dyn.split] in Ht.
  destruct (Dyn.isspace u a); [right; eauto|].
  destruct (Dyn.starts_token u s).
  - destruct (Dyn.split u s) as [|t' ts].
    + destruct Ht as [<-|[]]. destruct Hc as [<-|[]]. now left.
    + destruct Ht as [<-|Ht].
      * destruct Hc as [<-|Hc]; [now left|]. right. apply (IH t'); simpl; auto.
      * right. apply (IH t); simpl; auto.
  - destruct Ht as [<-|Ht].
    + destruct Hc as [<-|[]]. now left.
    + right. eauto.
Qed.

Lemma dyn_get_initials_ext (u u' : Dyn.unicode) (s : Dyn.text) :
  (forall c, In c s ->
     Dyn.isspace u c = Dyn.isspace u' c /\ Dyn.upper u c = Dyn.upper u' c) ->
  Dyn.get_initials u (Dyn.Str s) = Dyn.get_initials u' (Dyn.Str s).
Proof.
  intros H.
  pose proof (dyn_get_initials_spec u s) as H1.
  pose proof (dyn_get_initials_spec u' s) as H2.
  pose proof (dyn_split_chars u' s) as Hin.
  rewrite (dyn_split_ext u u' s) in H1 by (intros c Hc; apply H, Hc).
  destruct (Dyn.split u' s) as [|[|c0 t0] [|[|c1 t1] ts]]; try contradiction.
  - congruence.
  - rewrite H1, H2. f_equal. apply H. apply (Hin (c0 :: t0)); simpl; auto.
  - rewrite H1, H2. f_equal. f_equal.
    + apply H. apply (Hin (c0 :: t0)); simpl; auto.
    + apply H. apply (Hin (c1 :: t1)); simpl; auto.
Qed.

Lemma latin1_agrees_on_ascii : Dyn.agrees_on_ascii Dyn.latin1.
Proof.
  intros c Hc. apply N.ltb_lt in Hc. simpl. now rewrite Hc.
Qed.

Lemma dyn_get_initials_ascii (u : Dyn.unicode) (s : Dyn.text) :
  Dyn.agrees_on_ascii u ->
  forallb (fun c => (c <? 128)%N) s = true ->
  Dyn.get_initials u (Dyn.Str s) = Dyn.get_initials Dyn.latin1 (Dyn.Str s).
Proof.
  intros Hu Hs. apply dyn_get_initials_ext. intros c Hc.
  rewrite forallb_forall in Hs. specialize (Hs c Hc). apply N.ltb_lt in Hs.
  destruct (Hu c Hs) as [-> ->].
  destruct (latin1_agrees_on_ascii c Hs) as [-> ->]. auto.
Qed.

(** ** Initials (claim C9) *)

(** C9.  Whatever the Unicode tables of the interpreter are, [get_initials]
    never raises on a string.  On a name made of optional whitespace, a
    token, whitespace, a second token and a rest that does not continue the
    second token, it returns the upper-cased first character of the first
    token followed by that of the second; on a name with a single token the
    upper-cased first character of that token; on a name without tokens, the
    empty name among them, the empty string.  With the tables that every
    interpreter has on ASCII, "Ada Lovelace" gives "AL" and "Madonna" gives
    "M". *)
Theorem initials_of_every_name (u : Dyn.unicode) :
  (forall name, exists s, Dyn.get_initials u (Dyn.Str name) = Ok s) /\
  (forall w0 t0 w1 t1 rest r0 r1 c0 c1,
      Dyn.is_blank u w0 -> Dyn.is_token u t0 -> t0 = c0 :: r0 ->
      Dyn.is_blank u w1 -> w1 <> [] -> Dyn.is_token u t1 -> t1 = c1 :: r1 ->
      Dyn.starts_token u rest = false ->
      Dyn.split u (w0 ++ t0 ++ w1 ++ t1 ++ rest) = t0 :: t1 :: Dyn.split u rest /\
      Dyn.get_initials u (Dyn.Str (w0 ++ t0 ++ w1 ++ t1 ++ rest))
      = Ok (Dyn.upper u c0 ++ Dyn.upper u c1)) /\
  (forall w0 t0 w1 r0 c0,
      Dyn.is_blank u w0 -> Dyn.is_token u t0 -> t0 = c0 :: r0 ->
      Dyn.is_blank u w1 ->
      Dyn.split u (w0 ++ t0 ++ w1) = [t0] /\
      Dyn.get_initials u (Dyn.Str (w0 ++ t0 ++ w1)) = Ok (Dyn.upper u c0)) /\
  (forall w, Dyn.is_blank u w -> Dyn.get_initials u (Dyn.Str w) = Ok []) /\
  Dyn.get_initials u (Dyn.Str []) = Ok [] /\
  (Dyn.agrees_on_ascii u ->
   Dyn.get_initials u (Dyn.Str (Dyn.text_of_string "Ada Lovelace"))
   = Ok (Dyn.text_of_string "AL") /\
   Dyn.get_initials u (Dyn.Str (Dyn.text_of_string "Madonna"))
   = Ok (Dyn.text_of_string "M") /\
   Dyn.get_initials u (Dyn.Str (Dyn.text_of_string "")) = Ok (Dyn.text_of_string "")).
Proof.
  split; [apply dyn_get_initials_str|].
  split.
  { intros w0 t0 w1 t1 rest r0 r1 c0 c1 Hw0 Ht0 E0 Hw1 Hne1 Ht1 E1 Hrest.
    assert (Hs : Dyn.split u (w0 ++ t0 ++ w1 ++ t1 ++ rest)
                 = t0 :: t1 :: Dyn.split u rest).
    { rewrite dyn_split_blank, dyn_split_token, dyn_split_blank, dyn_split_token
        by auto using dyn_starts_token_blank. reflexivity. }
    split; [exact Hs|].
    pose proof (dyn_get_initials_spec u (w0 ++ t0 ++ w1 ++ t1 ++ rest)) as H.
    rewrite Hs in H. subst t0 t1. exact H. }
  split.
  { intros w0 t0 w1 r0 c0 Hw0 Ht0 E0 Hw1.
    assert (Hs : Dyn.split u (w0 ++ t0 ++ w1) = [t0]).
    { rewrite dyn_split_blank, dyn_split_token, dyn_split_only_blank
        by auto using dyn_starts_token_all_blank. reflexivity. }
    split; [exact Hs|].
    pose proof (dyn_get_initials_spec u (w0 ++ t0 ++ w1)) as H.
    rewrite Hs in H. subst t0. exact H. }
  split.
  { intros w Hw. unfold Dyn.get_initials. now rewrite dyn_split_only_blank. }
  split; [reflexivity|].
  intros Hu. repeat split.
  - rewrite (dyn_get_initials_ascii u _ Hu) by reflexivity. reflexivity.
  - rewrite (dyn_get_initials_ascii u _ Hu) by reflexivity. reflexivity.
Qed.

(** The theorem with the table of the code points below 256: the sharp s of
    "ßeta" becomes "SS", and a no-break space separates the two tokens of
    "josé maría". *)
Lemma initials_of_every_name_witness :
  Dyn.get_initials Dyn.latin1 (Dyn.Str (Dyn.text_of_string "Ada Lovelace"))
  = Ok (Dyn.text_of_string "AL") /\
  Dyn.get_initials Dyn.latin1 (Dyn.Str [223; 101; 116; 97]%N) = Ok [83; 83]%N /\
  Dyn.get_initials Dyn.latin1
    (Dyn.Str ([106; 111; 115; 233] ++ [160] ++ [109; 97; 114; 237; 97] ++ [])%N)
  = Ok [74; 77]%N.
Proof.
  destruct (initials_of_every_name Dyn.latin1) as (_ & H2 & H1 & _ & _ & Ha).
  split; [|split].
  - apply Ha. intros c Hc. apply N.ltb_lt in Hc. simpl. now rewrite Hc.
  - refine (proj2 (H1 [] [223; 101; 116; 97]%N [] [101; 116; 97]%N 223%N
                      _ _ eq_refl _)).
    + intros c [].
    + split; [discriminate|]. intros c Hc. simpl in Hc.
      intuition (subst; reflexivity).
    + intros c [].
  - refine (proj2 (H2 [] [106; 111; 115; 233]%N [160]%N [109; 97; 114; 237; 97]%N []
                      [111; 115; 233]%N [97; 114; 237; 97]%N 106%N 109%N
                      _ _ eq_refl _ _ _ eq_refl eq_refl)).
    + intros c [].
    + split; [discriminate|]. intros c Hc. simpl in Hc.
      intuition (subst; reflexivity).
    + intros c Hc. simpl in Hc. intuition (subst; reflexivity).
    + discriminate.
    + split; [discriminate|]. intros c Hc. simpl in Hc.
      intuition (subst; reflexivity).
Defined.

(** ** The aggregator on dynamically typed rows *)

Lemma dyn_scan_labs_ok (r : Dyn.row) (labs acc : list string) (counts : pydict) :
  (forall lab, In lab labs -> In lab (dict_keys counts)) ->
  exists counts',
    Dyn.scan_labs r labs acc counts = Ok (acc ++ Dyn.completed_in labs r, counts') /\
    dict_keys counts' = dict_keys counts /\
    sum (values counts') = sum (values counts) + length (Dyn.completed_in labs r).
Proof.
  revert acc counts.
  induction labs as [|lab labs IH]; intros acc counts Hkeys.
  - exists counts. simpl. rewrite app_nil_r. auto.
  - cbn [Dyn.scan_labs Dyn.completed_in List.filter].
    destruct (Dyn.is_yes r lab) eqn:Hyes.
    + destruct (dict_incr_ok lab counts) as (c1 & E1 & K1 & S1).
      { apply Hkeys. now left. }
      rewrite E1. cbn [bind].
      destruct (IH (acc ++ [lab]) c1) as (c2 & E2 & K2 & S2).
      { intros l Hl. rewrite K1. apply Hkeys. now right. }
      exists c2. rewrite E2, <- app_assoc. fold (Dyn.completed_in labs r).
      repeat split; [congruence|]. simpl. lia.
    + destruct (IH acc counts) as (c2 & E2 & K2 & S2).
      { intros l Hl. apply Hkeys. now right. }
      exists c2. fold (Dyn.completed_in labs r). auto.
Qed.

Lemma dyn_process_rows_ok (labs : list string) (rows : list Dyn.row)
    (acc : list Dyn.summary) (counts : pydict) :
  (forall lab, In lab labs -> In lab (dict_keys counts)) ->
  exists counts',
    Dyn.process_rows labs rows acc counts
    = Ok (acc ++ map (Dyn.summarize labs) rows, counts') /\
    dict_keys counts' = dict_keys counts /\
    sum (values counts')
    = sum (values counts)
      + sum (map Dyn.completed_labs (map (Dyn.summarize labs) rows)).
Proof.
  revert acc counts.
  induction rows as [|r rows IH]; intros acc counts Hkeys.
  - exists counts. simpl. rewrite app_nil_r. auto.
  - cbn [Dyn.process_rows].
    destruct (dyn_scan_labs_ok r labs [] counts Hkeys) as (c1 & E1 & K1 & S1).
    rewrite E1. cbn [bind fst snd app].
    destruct (IH (acc ++ [Dyn.summarize labs r]) c1) as (c2 & E2 & K2 & S2).
    { intros l Hl. rewrite K1. now apply Hkeys. }
    exists c2. unfold Dyn.summarize in E2 at 1. rewrite E2, <- app_assoc.
    repeat split; [congruence|]. simpl. lia.
Qed.

Lemma dyn_get_initials_ok (u : Dyn.unicode) (v : Dyn.value) :
  Dyn.is_str v = true -> Dyn.get_initials u v = Ok (Dyn.initials_of u v).
Proof.
  destruct v as [t| | | |]; try discriminate. intros _.
  unfold Dyn.initials_of. destruct (dyn_get_initials_str u t) as [s ->].
  reflexivity.
Qed.

Lemma dyn_get_initials_raises (u : Dyn.unicode) (v : Dyn.value) :
  Dyn.is_str v = false -> Dyn.get_initials u v = Raise AttributeError.
Proof. destruct v; [discriminate | reflexivity..]. Qed.

Lemma dyn_add_derived_ok (u : Dyn.unicode) (labs : list string) (k : nat)
    (users : list Dyn.summary) (acc : list Dyn.participant) :
  Forall (fun user => Dyn.is_str (Dyn.name user) = true) users ->
  Dyn.add_derived u labs k users acc = Ok (acc ++ Dyn.ranked u labs k users).
Proof.
  intros Hu. revert k acc.
  induction Hu as [|user users Hname _ IH]; intros k acc.
  - simpl. now rewrite app_nil_r.
  - cbn [Dyn.add_derived Dyn.ranked].
    rewrite (dyn_get_initials_ok u _ Hname), percentage_of_ok. cbn [bind].
    rewrite IH, <- app_assoc. reflexivity.
Qed.

Lemma dyn_add_derived_raises (u : Dyn.unicode) (labs : list string) (k : nat)
    (users : list Dyn.summary) (acc : list Dyn.participant) :
  ~ Forall (fun user => Dyn.is_str (Dyn.name user) = true) users ->
  Dyn.add_derived u labs k users acc = Raise AttributeError.
Proof.
  revert k acc. induction users as [|user users IH]; intros k acc Hbad.
  - destruct Hbad. constructor.
  - cbn [Dyn.add_derived].
    destruct (Dyn.is_str (Dyn.name user)) eqn:Hname.
    + rewrite (dyn_get_initials_ok u _ Hname), percentage_of_ok. cbn [bind].
      apply IH. intros Hrest. apply Hbad. now constructor.
    + now rewrite (dyn_get_initials_raises u _ Hname).
Qed.

Lemma dyn_summary_name (labs : list string) (r : Dyn.row) :
  Dyn.is_str (Dyn.name (Dyn.summarize labs r)) = Dyn.name_ok r.
Proof.
  unfold Dyn.summarize, Dyn.get_or_na, Dyn.name_ok. simpl.
  now destruct (r !! "name").
Qed.

Lemma dyn_sorted_names (labs : list string) (rows : list Dyn.row) :
  Forall (fun r => Dyn.name_ok r = true) rows <->
  Forall (fun user => Dyn.is_str (Dyn.name user) = true)
         (sort_desc Dyn.completed_labs (map (Dyn.summarize labs) rows)).
Proof.
  rewrite !Forall_forall. split.
  - intros H user Hu. apply list_elem_of_In in Hu.
    apply (Permutation_in _ (sort_desc_perm _ _)) in Hu.
    apply in_map_iff in Hu as (r & <- & Hr).
    rewrite dyn_summary_name. apply H. now apply list_elem_of_In.
  - intros H r Hr. rewrite <- (dyn_summary_name labs). apply H.
    apply list_elem_of_In.
    apply (Permutation_in _ (Permutation_sym (sort_desc_perm _ _))).
    apply in_map. now apply list_elem_of_In.
Qed.

(** The aggregator returns when every name that is present is a string, and
    raises [AttributeError] otherwise. *)
Lemma dyn_aggregator_ok (u : Dyn.unicode) (labs : list string) (rows : list Dyn.row) :
  Forall (fun r => Dyn.name_ok r = true) rows ->
  exists counts,
    Dyn.get_processed_participant_data u labs (Dyn.Reachable rows)
    = Ok (Dyn.leaderboard u labs rows, counts) /\
    dict_keys counts = dict_keys (dict_zero labs) /\
    sum (values counts)
    = sum (map Dyn.completed_labs (map (Dyn.summarize labs) rows)).
Proof.
  intros Hnames. unfold Dyn.get_processed_participant_data. cbn [Dyn.fetch].
  destruct (dyn_process_rows_ok labs rows [] (dict_zero labs)) as (c & E & K & S).
  { intros lab Hlab. now apply dict_zero_keys. }
  rewrite E. cbn [bind fst snd app].
  rewrite dyn_add_derived_ok by (now apply dyn_sorted_names).
  cbn [bind app]. exists c. rewrite dict_zero_sum in S. auto.
Qed.

Lemma dyn_aggregator_raises (u : Dyn.unicode) (labs : list string) (rows : list Dyn.row) :
  ~ Forall (fun r => Dyn.name_ok r = true) rows ->
  Dyn.get_processed_participant_data u labs (Dyn.Reachable rows)
  = Raise AttributeError.
Proof.
  intros Hbad. unfold Dyn.get_processed_participant_data. cbn [Dyn.fetch].
  destruct (dyn_process_rows_ok labs rows [] (dict_zero labs)) as (c & E & _ & _).
  { intros lab Hlab. now apply dict_zero_keys. }
  rewrite E. cbn [bind fst snd app].
  rewrite dyn_add_derived_raises; [reflexivity|].
  intros H. apply Hbad. now apply (dyn_sorted_names labs).
Qed.

Lemma dyn_ranked_base (u : Dyn.unicode) (labs : list string) (k : nat)
    (users : list Dyn.summary) :
  map Dyn.base (Dyn.ranked u labs k users) = users.
Proof.
  revert k. induction users as [|user users IH]; intros k; simpl; [reflexivity|].
  now rewrite IH.
Qed.

Lemma dyn_leaderboard_perm (u : Dyn.unicode) (labs : list string) (rows : list Dyn.row) :
  Permutation (map Dyn.base (Dyn.leaderboard u labs rows))
              (map (Dyn.summarize labs) rows).
Proof. unfold Dyn.leaderboard. rewrite dyn_ranked_base. apply sort_desc_perm. Qed.

Lemma dyn_leaderboard_length (u : Dyn.unicode) (labs : list string)
    (rows : list Dyn.row) :
  length (Dyn.leaderboard u labs rows) = length rows.
Proof.
  rewrite <- (length_map Dyn.base), (Permutation_length (dyn_leaderboard_perm u labs rows)).
  apply length_map.
Qed.

(** ** Missing fields (claim C10) *)

(** C10.  For every catalog and every list of rows in which each name that
    is present is a string, the aggregator of [src/app.py] returns without
    raising, and every row has a summary in the result whose name and email
    are the row's fields, or "N/A" when the row lacks the key, and whose
    completed labs are exactly the catalog labs whose field is the string
    "Yes": a lab whose field is missing or holds anything else is not
    counted. *)
Theorem missing_fields_default_to_na (u : Dyn.unicode) (labs : list string)
    (rows : list Dyn.row) :
  Forall (fun r => Dyn.name_ok r = true) rows ->
  exists ps counts,
    Dyn.get_processed_participant_data u labs (Dyn.Reachable rows) = Ok (ps, counts) /\
    forall r, In r rows ->
      exists p, In p ps /\
        (r !! "name" = None ->
         Dyn.name (Dyn.base p) = Dyn.Str (Dyn.text_of_string "N/A")) /\
        (r !! "email" = None ->
         Dyn.email (Dyn.base p) = Dyn.Str (Dyn.text_of_string "N/A")) /\
        (forall v, r !! "name" = Some v -> Dyn.name (Dyn.base p) = v) /\
        (forall v, r !! "email" = Some v -> Dyn.email (Dyn.base p) = v) /\
        (forall lab, In lab (Dyn.name_of_completed_labs (Dyn.base p))
                     <-> In lab labs /\
                         r !! lab = Some (Dyn.Str (Dyn.text_of_string "Yes"))) /\
        Dyn.completed_labs (Dyn.base p)
        = length (Dyn.name_of_completed_labs (Dyn.base p)) /\
        Dyn.name_of_completed_labs (Dyn.base p)
        = List.filter
            (fun lab =>
               bool_decide (r !! lab = Some (Dyn.Str (Dyn.text_of_string "Yes"))))
            labs.
Proof.
  intros Hnames.
  destruct (dyn_aggregator_ok u labs rows Hnames) as (counts & E & _ & _).
  exists (Dyn.leaderboard u labs rows), counts. split; [exact E|].
  intros r Hr.
  assert (Hs : In (Dyn.summarize labs r)
                  (map Dyn.base (Dyn.leaderboard u labs rows))).
  { apply (Permutation_in _ (Permutation_sym (dyn_leaderboard_perm u labs rows))).
    now apply in_map. }
  apply in_map_iff in Hs as (p & Hp & Hin).
  exists p. split; [exact Hin|]. rewrite Hp.
  unfold Dyn.summarize, Dyn.get_or_na. simpl.
  repeat split; try (intros; match goal with H : _ !! _ = _ |- _ => now rewrite H end).
  - now apply List.filter_In in H as [H _].
  - apply List.filter_In in H as [_ H]. unfold Dyn.is_yes in H.
    now apply bool_decide_eq_true in H.
  - intros [H1 H2]. apply List.filter_In. split; [exact H1|].
    unfold Dyn.is_yes. now apply bool_decide_eq_true.
Qed.

(** The theorem on a store whose only row has neither a name nor an email,
    a lab marked "Yes", a lab marked "No" and a lab that holds null. *)
Lemma missing_fields_default_to_na_witness :
  exists ps counts,
    Dyn.get_processed_participant_data Dyn.latin1 LABS
      (Dyn.Reachable
         [ list_to_map
             [("Get Started with Looker", Dyn.Str (Dyn.text_of_string "Yes"));
              ("Get Started with Dataplex", Dyn.Str (Dyn.text_of_string "No"));
              ("App Engine: 3 Ways", Dyn.Null)] ])
    = Ok (ps, counts) /\
    map (fun p => (Dyn.name (Dyn.base p), Dyn.email (Dyn.base p),
                   Dyn.name_of_completed_labs (Dyn.base p))) ps
    = [(Dyn.Str (Dyn.text_of_string "N/A"), Dyn.Str (Dyn.text_of_string "N/A"),
        ["Get Started with Looker"])].
Proof.
  destruct (missing_fields_default_to_na Dyn.latin1 LABS
              [ list_to_map
                  [("Get Started with Looker", Dyn.Str (Dyn.text_of_string "Yes"));
                   ("Get Started with Dataplex", Dyn.Str (Dyn.text_of_string "No"));
                   ("App Engine: 3 Ways", Dyn.Null)] ])
    as (ps & counts & E & _).
  { repeat constructor. }
  exists ps, counts. split; [exact E|].
  vm_compute in E. injection E as <- _. vm_compute. reflexivity.
Defined.

(** A row that holds a null name and has no email key: the aggregator raises
    [AttributeError], whatever the tables and the catalog. *)
Lemma null_name_raises :
  (<["name" := Dyn.Null]> ∅ : Dyn.row) !! "email" = None /\
  forall u labs,
    Dyn.get_processed_participant_data u labs
      (Dyn.Reachable [ <["name" := Dyn.Null]> ∅ ])
    = Raise AttributeError.
Proof.
  split; [reflexivity|]. intros u labs. apply dyn_aggregator_raises.
  intros H. apply Forall_cons in H as [H _]. vm_compute in H. discriminate.
Qed.

(** ** The home endpoint on dynamically typed rows *)

(** X1.  Whatever the Unicode tables and the catalog, the home endpoint of
    [src/app.py] answers with status 200 exactly when every name that is
    present in the rows it works with is a string (no rows when the read
    raised); total_participants is then the number of those rows, and without
    rows the payload is the all-zero one, with count 0 for every catalog lab.
    A row whose name is present and not a string, null for one, makes
    get_initials raise AttributeError: status 500. *)
Theorem home_endpoint_answers (u : Dyn.unicode) (labs : list string) (db : Dyn.store) :
  (Forall (fun r => Dyn.name_ok r = true) (Dyn.rows_of db) ->
   exists payload,
     Dyn.get_stats u labs db = Ok payload /\
     http_status (Dyn.get_stats u labs db) = 200 /\
     Dyn.total_participants payload = length (Dyn.rows_of db) /\
     (Dyn.rows_of db = [] ->
      payload = dyn_empty_home (dict_zero labs) /\
      forall lab, In lab labs ->
        dict_get lab (Dyn.badge_completion_rate payload) = Ok 0)) /\
  (~ Forall (fun r => Dyn.name_ok r = true) (Dyn.rows_of db) ->
   Dyn.get_stats u labs db = Raise AttributeError /\
   http_status (Dyn.get_stats u labs db) = 500).
Proof.
  split.
  - intros Hnames.
    assert (Hnone : Dyn.get_stats u labs db = Ok (dyn_empty_home (dict_zero labs)) ->
                    Dyn.rows_of db = [] ->
                    exists payload,
                      Dyn.get_stats u labs db = Ok payload /\
                      http_status (Dyn.get_stats u labs db) = 200 /\
                      Dyn.total_participants payload = length (Dyn.rows_of db) /\
                      (Dyn.rows_of db = [] ->
                       payload = dyn_empty_home (dict_zero labs) /\
                       forall lab, In lab labs ->
                         dict_get lab (Dyn.badge_completion_rate payload) = Ok 0)).
    { intros E Hrows. exists (dyn_empty_home (dict_zero labs)).
      rewrite E, Hrows. repeat split. intros lab Hlab. now apply dict_zero_get. }
    destruct db as [[|r rows]|]; [now apply Hnone | | now apply Hnone].
    cbn [Dyn.rows_of] in *.
    destruct (dyn_aggregator_ok u labs (r :: rows) Hnames) as (counts & E & _ & _).
    pose proof (dyn_leaderboard_length u labs (r :: rows)) as Hlen.
    unfold Dyn.get_stats. rewrite E. cbn [bind fst snd].
    destruct (Dyn.leaderboard u labs (r :: rows)) as [|p ps]; [discriminate|].
    eexists. split; [reflexivity|]. split; [reflexivity|].
    split; [exact Hlen | discriminate].
  - intros Hbad. destruct db as [rows|]; [|destruct Hbad; constructor].
    unfold Dyn.get_stats.
    rewrite (dyn_aggregator_raises u labs rows Hbad). split; reflexivity.
Qed.

(** The theorem on a store that holds one row with a null name. *)
Lemma home_endpoint_answers_witness :
  http_status
    (Dyn.get_stats Dyn.latin1 LABS
       (Dyn.Reachable
          [ list_to_map [("name", Dyn.Null);
                         ("email", Dyn.Str (Dyn.text_of_string "a@example.org"))] ]))
  = 500.
Proof.
  refine (proj2 (proj2 (home_endpoint_answers Dyn.latin1 LABS
                          (Dyn.Reachable
                             [ list_to_map
                                 [("name", Dyn.Null);
                                  ("email",
                                   Dyn.Str (Dyn.text_of_string "a@example.org"))] ]))
                   _)).
  intros H. apply Forall_cons in H as [H _]. vm_compute in H. discriminate.
Defined.

(** ** The earlier aggregator on dynamically typed rows *)

Lemma dyn_getitem_present (r : Dyn.row) (key : string) :
  is_Some (r !! key) -> Dyn.getitem r key = Ok (Dyn.get_or_na r key).
Proof. intros [v Hv]. unfold Dyn.getitem, Dyn.get_or_na. now rewrite Hv. Qed.

Lemma dyn_has_keys_spec (r : Dyn.row) :
  dyn_has_keys r = true <-> is_Some (r !! "name") /\ is_Some (r !! "email").
Proof.
  unfold dyn_has_keys.
  destruct (r !! "name") as [n|], (r !! "email") as [e|]; split;
    try discriminate; try (intros [[? H1] [? H2]]; discriminate); eauto.
Qed.

Lemma dyn_build_ranking_ok (labs : list string) (rows : list Dyn.row)
    (acc : list Dyn.ranking_entry) :
  Forall (fun r => dyn_has_keys r = true) rows ->
  Dyn.build_ranking labs rows acc = Ok (acc ++ map (dyn_entry_of labs) rows).
Proof.
  intros Hrows. revert acc.
  induction Hrows as [|r rows Hr _ IH]; intros acc.
  - simpl. now rewrite app_nil_r.
  - apply dyn_has_keys_spec in Hr as [Hname Hemail].
    cbn [Dyn.build_ranking].
    rewrite (dyn_getitem_present r "name" Hname),
            (dyn_getitem_present r "email" Hemail).
    cbn [bind]. rewrite IH, <- app_assoc, sum_ones. reflexivity.
Qed.

Lemma dyn_build_ranking_raises (labs : list string) (rows : list Dyn.row)
    (acc : list Dyn.ranking_entry) :
  ~ Forall (fun r => dyn_has_keys r = true) rows ->
  Dyn.build_ranking labs rows acc = Raise (KeyError "name") \/
  Dyn.build_ranking labs rows acc = Raise (KeyError "email").
Proof.
  revert acc. induction rows as [|r rows IH]; intros acc Hbad.
  - destruct Hbad. constructor.
  - cbn [Dyn.build_ranking]. unfold Dyn.getitem.
    destruct (r !! "name") as [n|] eqn:En; [|now left].
    destruct (r !! "email") as [e|] eqn:Ee; [|now right].
    cbn [bind]. apply IH. intros Hrest. apply Hbad.
    constructor; [|exact Hrest]. unfold dyn_has_keys. now rewrite En, Ee.
Qed.

Lemma dyn_assign_ranks_ok (u : Dyn.unicode) (k : nat)
    (users : list Dyn.ranking_entry) (acc : list Dyn.listed) :
  Forall (fun user => Dyn.is_str (Dyn.entry_name user) = true) users ->
  exists ps,
    Dyn.assign_ranks u k users acc = Ok ps /\
    length ps = length acc + length users.
Proof.
  intros Hu. revert k acc.
  induction Hu as [|user users Hname _ IH]; intros k acc.
  - exists acc. simpl. split; [reflexivity | lia].
  - cbn [Dyn.assign_ranks].
    rewrite (dyn_get_initials_ok u _ Hname). cbn [bind].
    destruct (IH (S k) (acc ++ [ {| Dyn.listed_rank := k;
                                    Dyn.listed_name := Dyn.entry_name user;
                                    Dyn.listed_initials :=
                                      Dyn.initials_of u (Dyn.entry_name user);
                                    Dyn.listed_completed_labs := Dyn.completed user;
                                    Dyn.listed_name_of_completed_labs :=
                                      Dyn.name_of_lab user |} ]))
      as (ps & E & Hlen).
    exists ps. split; [exact E|]. rewrite Hlen, length_app. simpl. lia.
Qed.

Lemma dyn_assign_ranks_raises (u : Dyn.unicode) (k : nat)
    (users : list Dyn.ranking_entry) (acc : list Dyn.listed) :
  ~ Forall (fun user => Dyn.is_str (Dyn.entry_name user) = true) users ->
  Dyn.assign_ranks u k users acc = Raise AttributeError.
Proof.
  revert k acc. induction users as [|user users IH]; intros k acc Hbad.
  - destruct Hbad. constructor.
  - cbn [Dyn.assign_ranks].
    destruct (Dyn.is_str (Dyn.entry_name user)) eqn:Hname.
    + rewrite (dyn_get_initials_ok u _ Hname). cbn [bind].
      apply IH. intros Hrest. apply Hbad. now constructor.
    + now rewrite (dyn_get_initials_raises u _ Hname).
Qed.

Lemma dyn_legacy_ok_spec (r : Dyn.row) :
  Dyn.legacy_ok r = true <-> dyn_has_keys r = true /\ Dyn.name_ok r = true.
Proof.
  unfold Dyn.legacy_ok, dyn_has_keys, Dyn.name_ok.
  destruct (r !! "name") as [n|], (r !! "email") as [e|]; intuition discriminate.
Qed.

Lemma dyn_sorted_entries (labs : list string) (rows : list Dyn.row) :
  Forall (fun r => Dyn.name_ok r = true) rows <->
  Forall (fun user => Dyn.is_str (Dyn.entry_name user) = true)
         (sort_desc Dyn.completed (map (dyn_entry_of labs) rows)).
Proof.
  assert (Hname : forall r, Dyn.is_str (Dyn.entry_name (dyn_entry_of labs r))
                            = Dyn.name_ok r).
  { intros r. unfold dyn_entry_of, Dyn.get_or_na, Dyn.name_ok. simpl.
    now destruct (r !! "name"). }
  rewrite !Forall_forall. split.
  - intros H user Hu. apply list_elem_of_In in Hu.
    apply (Permutation_in _ (sort_desc_perm _ _)) in Hu.
    apply in_map_iff in Hu as (r & <- & Hr).
    rewrite Hname. apply H. now apply list_elem_of_In.
  - intros H r Hr. rewrite <- Hname. apply H.
    apply list_elem_of_In.
    apply (Permutation_in _ (Permutation_sym (sort_desc_perm _ _))).
    apply in_map. now apply list_elem_of_In.
Qed.

(** X9.  Whatever the Unicode tables, get_participant_data of the earlier
    implementation, on rows read from the store, returns (one participant
    per row) exactly when every row has an email key and a name that is a
    string; otherwise it raises KeyError for "name" or "email", or
    AttributeError for a name that is not a string.  The aggregator of
    [src/app.py] returns one participant per row as soon as every name that
    is present is a string. *)
Theorem legacy_needs_name_and_email (u : Dyn.unicode) (labs : list string)
    (rows : list Dyn.row) :
  (Forall (fun r => Dyn.legacy_ok r = true) rows ->
   exists ps,
     Dyn.get_participant_data u labs (Dyn.Reachable rows) = Ok ps /\
     length ps = length rows) /\
  (~ Forall (fun r => Dyn.legacy_ok r = true) rows ->
   Dyn.get_participant_data u labs (Dyn.Reachable rows) = Raise (KeyError "name") \/
   Dyn.get_participant_data u labs (Dyn.Reachable rows) = Raise (KeyError "email") \/
   Dyn.get_participant_data u labs (Dyn.Reachable rows) = Raise AttributeError) /\
  (Forall (fun r => Dyn.name_ok r = true) rows ->
   exists ps counts,
     Dyn.get_processed_participant_data u labs (Dyn.Reachable rows) = Ok (ps, counts) /\
     length ps = length rows).
Proof.
  split; [|split].
  - intros Hrows.
    assert (Hkeys : Forall (fun r => dyn_has_keys r = true) rows).
    { eapply Forall_impl; [exact Hrows|]. intros r Hr.
      now apply dyn_legacy_ok_spec in Hr. }
    assert (Hnames : Forall (fun r => Dyn.name_ok r = true) rows).
    { eapply Forall_impl; [exact Hrows|]. intros r Hr.
      now apply dyn_legacy_ok_spec in Hr. }
    unfold Dyn.get_participant_data. cbn [Dyn.fetch bind].
    rewrite (dyn_build_ranking_ok labs rows [] Hkeys). cbn [bind app].
    destruct (dyn_assign_ranks_ok u 1
                (sort_desc Dyn.completed (map (dyn_entry_of labs) rows)) [])
      as (ps & E & Hlen); [now apply dyn_sorted_entries|].
    exists ps. split; [exact E|].
    rewrite Hlen, sort_desc_length, length_map. reflexivity.
  - intros Hbad. unfold Dyn.get_participant_data. cbn [Dyn.fetch bind].
    destruct (decide (Forall (fun r => dyn_has_keys r = true) rows)) as [Hkeys|Hkeys].
    + rewrite (dyn_build_ranking_ok labs rows [] Hkeys). cbn [bind app].
      right. right. apply dyn_assign_ranks_raises.
      intros H. apply (dyn_sorted_entries labs) in H. apply Hbad.
      rewrite Forall_forall in *. intros r Hr. apply dyn_legacy_ok_spec. auto.
    + destruct (dyn_build_ranking_raises labs rows [] Hkeys) as [-> | ->]; auto.
  - intros Hnames.
    destruct (dyn_aggregator_ok u labs rows Hnames) as (counts & E & _ & _).
    exists (Dyn.leaderboard u labs rows), counts.
    split; [exact E | apply dyn_leaderboard_length].
Qed.

(** The theorem on a store whose second row has no email. *)
Lemma legacy_needs_name_and_email_witness :
  Dyn.get_participant_data Dyn.latin1 LABS
    (Dyn.Reachable
       [ list_to_map [("name", Dyn.Str (Dyn.text_of_string "A"));
                      ("email", Dyn.Str (Dyn.text_of_string "a@example.org"))];
         list_to_map [("name", Dyn.Str (Dyn.text_of_string "D"))] ])
  = Raise (KeyError "email").
Proof.
  destruct (proj1 (proj2 (legacy_needs_name_and_email Dyn.latin1 LABS
              [ list_to_map [("name", Dyn.Str (Dyn.text_of_string "A"));
                             ("email", Dyn.Str (Dyn.text_of_string "a@example.org"))];
                list_to_map [("name", Dyn.Str (Dyn.text_of_string "D"))] ])))
    as [H|[H|H]].
  - intros H. apply Forall_cons in H as [_ H]. apply Forall_cons in H as [H _].
    vm_compute in H. discriminate.
  - vm_compute in H. discriminate.
  - exact H.
  - vm_compute in H. discriminate.
Defined.

(** ** The ASCII definitions are the Unicode ones on ASCII names *)

Lemma ascii_tables_agree (c : ascii) :
  (N_of_ascii c < 128)%N ->
  Dyn.isspace Dyn.latin1 (N_of_ascii c) = isspace c /\
  Dyn.upper Dyn.latin1 (N_of_ascii c) = Dyn.text_of_string (upper c).
Proof.
  destruct c as [[] [] [] [] [] [] [] []]; intros H;
    try (vm_compute in H; discriminate); split; reflexivity.
Qed.

Lemma ascii_split_agrees (s : string) :
  seven_bit s ->
  Dyn.split Dyn.latin1 (Dyn.text_of_string s) = map Dyn.text_of_string (split s).
Proof.
  induction s as [|c s IH]; intros Hs; [reflexivity|].
  assert (Hc : (N_of_ascii c < 128)%N) by (apply Hs; simpl; auto).
  assert (Hs' : seven_bit s) by (intros a Ha; apply Hs; simpl; auto).
  change (Dyn.text_of_string (String c s))
    with (N_of_ascii c :: Dyn.text_of_string s).
  cbn [Dyn.split split].
  rewrite (proj1 (ascii_tables_agree c Hc)), (IH Hs').
  destruct (isspace c); [reflexivity|].
  replace (Dyn.starts_token Dyn.latin1 (Dyn.text_of_string s))
    with (starts_token s).
  - destruct (starts_token s); [|reflexivity].
    destruct (split s) as [|t ts]; reflexivity.
  - destruct s as [|c' s]; [reflexivity|].
    change (Dyn.text_of_string (String c' s))
      with (N_of_ascii c' :: Dyn.text_of_string s).
    cbn [Dyn.starts_token starts_token].
    now rewrite (proj1 (ascii_tables_agree c' (Hs' c' (or_introl eq_refl)))).
Qed.

Lemma split_chars (s t : string) (c : ascii) :
  In t (split s) -> In c (list_ascii_of_string t) -> In c (list_ascii_of_string s).
Proof.
  revert t. induction s as [|a s IH]; intros t Ht Hc; [destruct Ht|].
  cbn [split] in Ht. simpl.
  destruct (isspace a); [right; eauto|].
  destruct (starts_token s).
  - destruct (split s) as [|t' ts].
    + destruct Ht as [<-|[]]. destruct Hc as [<-|[]]. now left.
    + destruct Ht as [<-|Ht].
      * destruct Hc as [<-|Hc]; [now left|]. right. apply (IH t'); simpl; auto.
      * right. apply (IH t); simpl; auto.
  - destruct Ht as [<-|Ht].
    + destruct Hc as [<-|[]]. now left.
    + right. eauto.
Qed.

Lemma text_of_string_app (s t : string) :
  Dyn.text_of_string (s ++ t)%string = Dyn.text_of_string s ++ Dyn.text_of_string t.
Proof.
  induction s as [|c s IH]; [reflexivity|].
  change (Dyn.text_of_string (String c s ++ t)%string)
    with (N_of_ascii c :: Dyn.text_of_string (s ++ t)%string).
  now rewrite IH.
Qed.

(** On a name of characters below 128, and with tables that answer on ASCII
    as every interpreter does, [Dyn.get_initials] returns the text of what
    [get_initials] returns. *)
Lemma ascii_get_initials_agrees (u : Dyn.unicode) (s : string) :
  Dyn.agrees_on_ascii u -> seven_bit s ->
  exists t,
    get_initials s = Ok t /\
    Dyn.get_initials u (Dyn.Str (Dyn.text_of_string s)) = Ok (Dyn.text_of_string t).
Proof.
  intros Hu Hs.
  assert (H7 : forallb (fun c => (c <? 128)%N) (Dyn.text_of_string s) = true).
  { apply forallb_forall. intros c Hc. apply in_map_iff in Hc as (a & <- & Ha).
    apply N.ltb_lt. now apply Hs. }
  rewrite (dyn_get_initials_ascii u _ Hu H7).
  pose proof (get_initials_spec s) as H1.
  pose proof (dyn_get_initials_spec Dyn.latin1 (Dyn.text_of_string s)) as H2.
  pose proof (split_chars s) as Hin.
  rewrite (ascii_split_agrees s Hs) in H2.
  destruct (split s) as [|[|c0 t0] [|[|c1 t1] ts]]; try contradiction;
    cbn [map] in H2.
  - exists "". auto.
  - exists (upper c0). split; [exact H1|].
    change (Dyn.text_of_string (String c0 t0))
      with (N_of_ascii c0 :: Dyn.text_of_string t0) in H2.
    rewrite H2. f_equal. apply ascii_tables_agree.
    apply Hs. apply (Hin (String c0 t0)); simpl; auto.
  - exists (upper c0 ++ upper c1)%string. split; [exact H1|].
    change (Dyn.text_of_string (String c0 t0))
      with (N_of_ascii c0 :: Dyn.text_of_string t0) in H2.
    change (Dyn.text_of_string (String c1 t1))
      with (N_of_ascii c1 :: Dyn.text_of_string t1) in H2.
    rewrite H2, text_of_string_app. f_equal. f_equal.
    + apply ascii_tables_agree. apply Hs. apply (Hin (String c0 t0)); simpl; auto.
    + apply ascii_tables_agree. apply Hs. apply (Hin (String c1 t1)); simpl; auto.
Qed.
